(** * pdf-creator: the validator, layout arithmetic and document assembler

    A shallow embedding of [src/services/pdfService.tsx] (class [PDFService]),
    of the option handlers of [components/ImageLayout.tsx] and of the state
    handlers of [App.tsx].

    Conventions of the model.
    - A JavaScript string is a [string] of 8-bit characters (code units
      0..255, read as Latin-1).  Lower-casing, which in JavaScript can
      change the length of a string with larger code units, is a parameter
      of the validator; [Js.toLowerCase] is its instance on these strings.
    - A JavaScript number is an exact rational ([Q]); rounding of IEEE
      doubles, infinities and NaN are not modelled, except where the code
      produces NaN from [parseInt], which is an [option].  A division by
      zero (a slot of height zero, an image without pixels) is [Q]'s, not
      IEEE's.  The statements about the pages of a document do not depend
      on coordinates; the formulas of a slot are compared as formulas; the
      fitted box is given a second time in binary64 ([Binary64]), where
      its bounds are checked.
    - A promise is the outcome of awaiting it: a value, a thrown error, or
      a computation that never settles.
    - The pdf-lib entry points ([embedJpg], [embedPng], [PDFDocument.load],
      [save], [PDFDocument.create]) are parameters of the assembler. *)

From Stdlib Require Import List Bool Arith ZArith QArith Qround Lia Lqa.
From Stdlib Require Import Ascii String.
From Stdlib Require Floats.
From Stdlib.Strings Require Import Byte.
Import ListNotations.

Local Open Scope string_scope.
Local Open Scope Z_scope.

(** ** JavaScript string primitives *)

Module Js.

Definition code (c : ascii) : N := N_of_ascii c.

Definition between (lo hi : N) (c : ascii) : bool :=
  ((lo <=? code c) && (code c <=? hi))%N.

(** [String.prototype.toLowerCase] on one Latin-1 code unit: A-Z, and the
    accented capitals U+00C0..U+00DE except the multiplication sign U+00D7. *)
Definition lower_char (c : ascii) : ascii :=
  if between 65 90 c then ascii_of_N (code c + 32)
  else if between 192 222 c && negb (code c =? 215)%N
       then ascii_of_N (code c + 32)
       else c.

Fixpoint toLowerCase (s : string) : string :=
  match s with
  | EmptyString => EmptyString
  | String c s' => String (lower_char c) (toLowerCase s')
  end.

Definition length (s : string) : Z := Z.of_nat (String.length s).

Fixpoint lastIndexOf_from (c : ascii) (s : string) (i acc : Z) : Z :=
  match s with
  | EmptyString => acc
  | String a s' =>
      lastIndexOf_from c s' (i + 1) (if Ascii.eqb a c then i else acc)
  end.

(** [s.lastIndexOf(c)]: the index of the last occurrence, [-1] when none. *)
Definition lastIndexOf (s : string) (c : ascii) : Z :=
  lastIndexOf_from c s 0 (-1).

Fixpoint drop (n : nat) (s : string) : string :=
  match n, s with
  | O, _ => s
  | S n', String _ s' => drop n' s'
  | S _, EmptyString => EmptyString
  end.

(** [s.slice(start)]: a negative [start] counts from the end. *)
Definition slice (s : string) (start : Z) : string :=
  let len := length s in
  let from := if start <? 0 then Z.max (len + start) 0 else Z.min start len in
  drop (Z.to_nat from) s.

(** [s.startsWith(p)] *)
Definition startsWith (s p : string) : bool := String.prefix p s.

(** [s.includes(p)] *)
Fixpoint includes (s p : string) : bool :=
  String.prefix p s ||
  match s with
  | EmptyString => false
  | String _ s' => includes s' p
  end.

(** [xs.includes(x)] on an array of strings *)
Definition array_includes (xs : list string) (x : string) : bool :=
  existsb (String.eqb x) xs.

(** [\w] of a regular expression without the unicode flag. *)
Definition is_word (c : ascii) : bool :=
  between 48 57 c || between 65 90 c || between 97 122 c || (code c =? 95)%N.

(** All matches of [/\w\w/g], left to right, without overlap. *)
Fixpoint match_all_ww (s : string) : list string :=
  match s with
  | EmptyString => []
  | String a tl =>
      match tl with
      | EmptyString => []
      | String b rest =>
          if is_word a && is_word b
          then String a (String b EmptyString) :: match_all_ww rest
          else match_all_ww tl
      end
  end.

(** [s.match(/\w\w/g)]: [null] (here [None]) when nothing matches. *)
Definition match_ww (s : string) : option (list string) :=
  match match_all_ww s with
  | [] => None
  | ms => Some ms
  end.

Definition hex_value (c : ascii) : option Z :=
  if between 48 57 c then Some (Z.of_N (code c) - 48)
  else if between 97 102 c then Some (Z.of_N (code c) - 87)
  else if between 65 70 c then Some (Z.of_N (code c) - 55)
  else None.

Definition is_hex (c : ascii) : bool :=
  match hex_value c with Some _ => true | None => false end.

Definition is_space (c : ascii) : bool :=
  between 9 13 c || (code c =? 32)%N || (code c =? 160)%N.

Fixpoint trimStart (s : string) : string :=
  match s with
  | String c s' => if is_space c then trimStart s' else s
  | EmptyString => s
  end.

(** The digits of the longest hexadecimal prefix, folded into a number. *)
Fixpoint hex_digits (s : string) (acc : option Z) : option Z :=
  match s with
  | EmptyString => acc
  | String c s' =>
      match hex_value c with
      | Some d =>
          hex_digits s' (Some (16 * match acc with Some a => a | None => 0 end + d))
      | None => acc
      end
  end.

Definition strip_0x (s : string) : string :=
  match s with
  | String "0" (String "x" s') => s'
  | String "0" (String "X" s') => s'
  | _ => s
  end.

(** [parseInt(s, 16)]: leading white space, a sign, an optional [0x], then
    the longest run of hexadecimal digits; [NaN] (here [None]) when that
    run is empty. *)
Definition parseInt16 (s : string) : option Z :=
  match trimStart s with
  | String "-" s' => option_map Z.opp (hex_digits (strip_0x s') None)
  | String "+" s' => hex_digits (strip_0x s') None
  | s' => hex_digits (strip_0x s') None
  end.

End Js.

(** ** Files and the validator ([validateFile], lines 29-53) *)

(** A browser [File]: the metadata and the bytes [arrayBuffer()] resolves to.
    [type] is a reserved word here, hence [type_]. *)
Record File := mkFile {
  name : string;
  type_ : string;
  size : Z;
  content : list byte
}.

Definition MAX_FILE_SIZE : Z := 100 * 1024 * 1024.

Definition supportedTypes : list string :=
  ["image/jpeg"; "image/jpg"; "image/png"; "application/pdf"].

Definition supportedExtensions : list string :=
  [".pdf"; ".jpg"; ".jpeg"; ".png"; ".jpe"; ".jif"; ".jfif"].

Definition too_large_message (file : File) : string :=
  "File " ++ name file ++ " is too large. Maximum size is 100MB".

Definition not_supported_message (file : File) : string :=
  "File " ++ name file
  ++ " is not supported. Please use PDF, JPG, JPEG, or PNG files".

(** Line 46.  [toLowerCase] is [String.prototype.toLowerCase], taken as a
    parameter: JavaScript's lower-casing can change the length of a name
    (U+0130 becomes two code units), and the index of the slice is the
    one of the last dot of the name as given, not of the lower-cased
    name. *)
Definition fileExtension_with (toLowerCase : string -> string) (file : File)
  : string :=
  Js.slice (toLowerCase (name file)) (Js.lastIndexOf (name file) ".").

(** [validateFile] (lines 29-53) for a given lower-casing.  The argument is
    [None] for a null reference; the result is the error message, [None]
    for [null]. *)
Definition validateFile_with (toLowerCase : string -> string)
  (file : option File) : option string :=
  match file with
  | None => Some "Invalid file provided"
  | Some file =>
      if size file >? MAX_FILE_SIZE then Some (too_large_message file)
      else if negb (Js.array_includes supportedTypes (type_ file))
              || negb (Js.array_includes supportedExtensions
                         (fileExtension_with toLowerCase file))
           then Some (not_supported_message file)
           else None
  end.

(** The validator on names whose code units are all below 256, where
    lower-casing is [Js.toLowerCase]. *)
Definition fileExtension (file : File) : string :=
  fileExtension_with Js.toLowerCase file.

Definition validateFile (file : option File) : option string :=
  validateFile_with Js.toLowerCase file.

(** ** Options, errors and outcomes *)

Inductive ImagesPerPage := One | Two | Four.

(** The numeric value of the literal type [1 | 2 | 4]. *)
Definition ipp_value (k : ImagesPerPage) : Z :=
  match k with One => 1 | Two => 2 | Four => 4 end.

Inductive Orientation := portrait | landscape.

Record Margins := mkMargins { top : Q; right : Q; bottom : Q; left : Q }.

Record Border := mkBorder {
  enabled : bool;
  border_width : Q;
  color : string
}.

Record PDFOptions := mkOptions {
  imagesPerPage : ImagesPerPage;
  margins : Margins;
  border : Border;
  orientation : Orientation
}.

(** What a [catch] clause can receive: a [PDFError] with its optional
    [fileName], or any other [Error] (a pdf-lib failure, a [TypeError]). *)
Inductive JsError :=
| PDFError (message : string) (fileName : option string)
| OtherError (message : string).

Definition error_message (e : JsError) : string :=
  match e with PDFError m _ => m | OtherError m => m end.

Definition error_fileName (e : JsError) : option string :=
  match e with PDFError _ f => f | OtherError _ => None end.

(** [error.message || 'Unknown error'] *)
Definition message_or_unknown (e : JsError) : string :=
  match error_message e with
  | EmptyString => "Unknown error"
  | m => m
  end.

Inductive outcome (A : Type) :=
| Returns (a : A)
| Throws (e : JsError)
| Diverges.
Arguments Returns {A} a.
Arguments Throws {A} e.
Arguments Diverges {A}.

Definition bind {A B} (m : outcome A) (k : A -> outcome B) : outcome B :=
  match m with
  | Returns a => k a
  | Throws e => Throws e
  | Diverges => Diverges
  end.

(** [try { body } catch (error) { handler }] *)
Definition try_catch {A} (body : outcome A) (handler : JsError -> outcome A)
  : outcome A :=
  match body with
  | Throws e => handler e
  | other => other
  end.

(** The outcome of awaiting a library promise: it resolves, or rejects
    with an error of the library (never a [PDFError]) with a message. *)
Definition await {A} (r : string + A) : outcome A :=
  match r with inl m => Throws (OtherError m) | inr a => Returns a end.

Notation "x <- m ;; k" := (bind m (fun x => k))
  (at level 61, m at next level, right associativity).

(** A [for ... of] loop whose body updates a state and may throw. *)
Fixpoint for_of {A S} (body : S -> A -> outcome S) (xs : list A) (s : S)
  : outcome S :=
  match xs with
  | [] => Returns s
  | x :: xs' => s' <- body s x ;; for_of body xs' s'
  end.

(** ** [chunkArray] (lines 237-243) *)

(** [array.slice(i, j)] for [0 <= i <= j]. *)
Definition slice {T} (array : list T) (i j : nat) : list T :=
  firstn (j - i) (skipn i array).

(** The loop [for (i = 0; i < array.length; i += size)]; it runs out of
    [fuel] only when the JavaScript loop does not terminate. *)
Fixpoint chunkArray_loop {T} (fuel : nat) (array : list T) (size i : nat)
  (chunks : list (list T)) : option (list (list T)) :=
  if (i <? List.length array)%nat then
    match fuel with
    | O => None
    | S fuel' =>
        chunkArray_loop fuel' array size (i + size)
          (chunks ++ [slice array i (i + size)])
    end
  else Some chunks.

Definition chunkArray {T} (array : list T) (size : nat)
  : option (list (list T)) :=
  chunkArray_loop (List.length array) array size 0 [].

(** ** Pages and drawing operations *)

Local Open Scope Q_scope.

Record Box := mkBox { box_x : Q; box_y : Q; box_width : Q; box_height : Q }.

(** A decoded image as pdf-lib returns it: its pixel dimensions, and an
    identifier of the embedded object. *)
Record PDFImage := mkImage {
  image_ref : string;
  image_width : Q;
  image_height : Q
}.

Record Color := mkColor { red : Q; green : Q; blue : Q }.

Inductive DrawOp :=
| DrawRectangle (box : Box) (borderWidth : Q) (borderColor : Color)
| DrawImage (image : PDFImage) (box : Box).

(** A page created by [addPage(size)] and what has been drawn on it. *)
Record PDFPage := mkPage {
  page_width : Q;
  page_height : Q;
  page_ops : list DrawOp
}.

Definition draw (page : PDFPage) (op : DrawOp) : PDFPage :=
  mkPage (page_width page) (page_height page) (page_ops page ++ [op]).

(** The argument [dimensions] of [embedImageInPage]. *)
Record Dimensions := mkDimensions {
  dim_x : Q;
  dim_y : Q;
  dim_width : Q;
  dim_height : Q;
  dim_border : Border
}.

(** [PageSizes.A4] of pdf-lib, in points. *)
Definition A4 : Q * Q := (59528 # 100, 84189 # 100).

(** [a > b] on numbers. *)
Definition Qgtb (a b : Q) : bool := negb (Qle_bool a b).

(** pdf-lib's [rgb(r, g, b)]: every component must be a number (neither
    [undefined] nor [NaN], both [None] here) between 0 and 1. *)
Definition rgb (r g b : option Q) : outcome Color :=
  match r, g, b with
  | Some r, Some g, Some b =>
      if Qle_bool 0 r && Qle_bool r 1 && Qle_bool 0 g && Qle_bool g 1
         && Qle_bool 0 b && Qle_bool b 1
      then Returns (mkColor r g b)
      else Throws (OtherError "color component must be at least 0 and at most 1")
  | _, _, _ => Throws (OtherError "color component must be of type number")
  end.

(** [dimensions.border.color.match(/\w\w/g)!.map(x => parseInt(x, 16) / 255)]:
    [None] when the match is [null], so that [.map] throws a [TypeError]. *)
Definition color_components (color : string) : option (list (option Q)) :=
  option_map
    (map (fun x => option_map (fun n => inject_Z n / 255) (Js.parseInt16 x)))
    (Js.match_ww color).

(** Array destructuring [[r, g, b] = components]: a missing element is
    [undefined], which [rgb] rejects like [NaN]. *)
Definition component (components : list (option Q)) (i : nat) : option Q :=
  match nth_error components i with
  | Some c => c
  | None => None
  end.

(** Lines 177-187 of [embedImageInPage]: the box the image is drawn in,
    in exact arithmetic. *)
Definition fittedBox (image : PDFImage) (dimensions : Dimensions) : Box :=
  let aspectRatio := image_width image / image_height image in
  let '(width, height) :=
    if Qgtb (dim_width dimensions / dim_height dimensions) aspectRatio
    then (dim_height dimensions * aspectRatio, dim_height dimensions)
    else (dim_width dimensions, dim_width dimensions / aspectRatio) in
  let x := dim_x dimensions + (dim_width dimensions - width) / 2 in
  let y := dim_y dimensions + (dim_height dimensions - height) / 2 in
  mkBox x y width height.

(** Lines 189-203: the border rectangle, drawn when [border.enabled]. *)
Definition drawBorder (page : PDFPage) (b : Box) (dimensions : Dimensions)
  : outcome PDFPage :=
  if enabled (dim_border dimensions) then
    let borderWidth := border_width (dim_border dimensions) in
    match color_components (color (dim_border dimensions)) with
    | None =>
        Throws (OtherError "Cannot read properties of null (reading 'map')")
    | Some cs =>
        borderColor <- rgb (component cs 0) (component cs 1) (component cs 2) ;;
        Returns (draw page
          (DrawRectangle
             (mkBox (box_x b - borderWidth) (box_y b - borderWidth)
                    (box_width b + borderWidth * 2)
                    (box_height b + borderWidth * 2))
             borderWidth borderColor))
    end
  else Returns page.

(** ** The fitted box in double precision *)

(** Lines 177-187 of [embedImageInPage] once more, on IEEE binary64
    numbers as JavaScript computes them: every operation rounds, a
    division by zero is an infinity or [NaN], and a comparison with [NaN]
    is false.  [fittedBox] above is the same lines without rounding. *)
Module Binary64.

Import PrimFloat.

Record Box := mkBox {
  box_x : float;
  box_y : float;
  box_width : float;
  box_height : float
}.

Definition fittedBox (image_width image_height : float)
  (x y width height : float) : Box :=
  (let aspectRatio := image_width / image_height in
   let '(w, h) :=
     if aspectRatio <? width / height
     then (height * aspectRatio, height)
     else (width, width / aspectRatio) in
   mkBox (x + (width - w) / 2) (y + (height - h) / 2) w h)%float.


End Binary64.

(** ** The layout of a slot (lines 118-141 of [addImagesToDocument]) *)

(** [Math.floor(a / b)] and [a % b] on integer-valued numbers. *)
Definition Math_floor_div (a b : Z) : Z := Qfloor (inject_Z a / inject_Z b).
Definition Js_rem (a b : Z) : Z := Z.rem a b.

(** The [dimensions] handed to [embedImageInPage] for the image at index
    [i] of a group, on a page of the given [width] and [height]. *)
Definition slotDimensions (options : PDFOptions) (width height : Q) (i : nat)
  : Dimensions :=
  let imagesPerPage := imagesPerPage options in
  let margins := margins options in
  let cols := if (ipp_value imagesPerPage =? 4)%Z then 2%Z else 1%Z in
  let rows := if (ipp_value imagesPerPage =? 1)%Z then 1%Z else 2%Z in
  let contentWidth := width - left margins - right margins in
  let contentHeight := height - top margins - bottom margins in
  let imageWidth :=
    (contentWidth - inject_Z (cols - 1) * right margins) / inject_Z cols in
  let imageHeight :=
    (contentHeight - inject_Z (rows - 1) * bottom margins) / inject_Z rows in
  let row := Math_floor_div (Z.of_nat i) cols in
  let col := Js_rem (Z.of_nat i) cols in
  let x := left margins + inject_Z col * (imageWidth + right margins) in
  let y := height - top margins - inject_Z (row + 1) * imageHeight
           - inject_Z row * bottom margins in
  mkDimensions x y imageWidth imageHeight (border options).

(** The same rectangle, written from section 4.2 of the specification
    (Layout Calculator), with integer division and remainder. *)
Definition slotRect_spec (pageWidth pageHeight : Q) (margins : Margins)
  (imagesPerPage : ImagesPerPage) (slotIndex : nat) : Box :=
  let cols := match imagesPerPage with Four => 2%Z | _ => 1%Z end in
  let rows := match imagesPerPage with One => 1%Z | _ => 2%Z end in
  let slotWidth :=
    (pageWidth - left margins - right margins
     - inject_Z (cols - 1) * right margins) / inject_Z cols in
  let slotHeight :=
    (pageHeight - top margins - bottom margins
     - inject_Z (rows - 1) * bottom margins) / inject_Z rows in
  let row := (Z.of_nat slotIndex / cols)%Z in
  let col := (Z.of_nat slotIndex mod cols)%Z in
  mkBox (left margins + inject_Z col * (slotWidth + right margins))
        (pageHeight - top margins - inject_Z (row + 1) * slotHeight
         - inject_Z row * bottom margins)
        slotWidth slotHeight.

(** ** The assembler *)

Section Assembler.

(** Pages of a loaded document, and the bytes [save] produces. *)
Variable SourcePage : Type.
Variable Bytes : Type.

(** pdf-lib: [pdfDoc.embedJpg], [pdfDoc.embedPng] (which may reject, or
    resolve to an image), [PDFDocument.load] followed by [getPages],
    [pdfDoc.save] and [PDFDocument.create] ([Some e] when it rejects). *)
Variable embedJpg : list byte -> string + option PDFImage.
Variable embedPng : list byte -> string + option PDFImage.
Variable PDFDocument_load : list byte -> string + list SourcePage.

(** A page of the output: created here and drawn on, or copied. *)
Inductive DocPage :=
| Drawn (page : PDFPage)
| Copied (page : SourcePage).

Definition PDFDocument := list DocPage.

Variable save : PDFDocument -> string + Bytes.
Variable PDFDocument_create : option string.

(** Lines 162-175: decoding by declared subtype. *)
Definition decodeImage (file : File) : outcome PDFImage :=
  let imageBytes := content file in
  image <-
    (if Js.includes (type_ file) "jpeg" || Js.includes (type_ file) "jpg"
     then await (embedJpg imageBytes)
     else if Js.includes (type_ file) "png"
          then await (embedPng imageBytes)
          else Throws (PDFError ("Unsupported image format: " ++ type_ file)
                                (Some (name file)))) ;;
  match image with
  | None => Throws (PDFError "Failed to embed image" (Some (name file)))
  | Some image => Returns image
  end.

(** [embedImageInPage] (lines 149-209).  The page is passed and returned
    instead of being mutated; [pdfDoc] only receives the embedded image
    object and is left out. *)
Definition embedImageInPage (page : PDFPage) (file : File)
  (dimensions : Dimensions) : outcome PDFPage :=
  try_catch
    (image <- decodeImage file ;;
     let b := fittedBox image dimensions in
     page' <- drawBorder page b dimensions ;;
     Returns (draw page' (DrawImage image b)))
    (fun error =>
       Throws (PDFError ("Failed to embed image: " ++ error_message error)
                        (Some (name file)))).

(** The loop [for (let i = 0; i < group.length; i++)] of lines 127-142,
    entered at index [i] with the images [group[i..]] left to place. *)
Fixpoint embedGroup (options : PDFOptions) (width height : Q) (i : nat)
  (group : list File) (page : PDFPage) : outcome PDFPage :=
  match group with
  | [] => Returns page
  | file :: rest =>
      page' <- embedImageInPage page file
                 (slotDimensions options width height i) ;;
      embedGroup options width height (S i) rest page'
  end.

Definition only_allowed_error : JsError :=
  PDFError "Only jpg, pdf, png are allowed" None.

(** The body of the loop over [imageGroups] (lines 113-146).  The page
    joins the document once it is drawn: when drawing throws, the whole
    document is dropped by the caller. *)
Definition addImageGroup (options : PDFOptions) (pageSize : Q * Q)
  (pdfDoc : PDFDocument) (group : list File) : outcome PDFDocument :=
  try_catch
    (let page := mkPage (fst pageSize) (snd pageSize) [] in
     let width := page_width page in
     let height := page_height page in
     page' <- embedGroup options width height 0 group page ;;
     Returns (pdfDoc ++ [Drawn page'])%list)
    (fun _ => Throws only_allowed_error).

(** [addImagesToDocument] (lines 101-147) *)
Definition addImagesToDocument (pdfDoc : PDFDocument) (images : list File)
  (options : PDFOptions) : outcome PDFDocument :=
  match chunkArray images (Z.to_nat (ipp_value (imagesPerPage options))) with
  | None => Diverges
  | Some imageGroups =>
      let pageSize :=
        match orientation options with
        | landscape => (snd A4, fst A4)
        | portrait => A4
        end in
      for_of (addImageGroup options pageSize) imageGroups pdfDoc
  end.

(** [existingPdf.getPageIndices()] and [pdfDoc.copyPages(existingPdf, _)] *)
Definition getPageIndices (existingPdf : list SourcePage) : list nat :=
  seq 0 (List.length existingPdf).

Definition copyPages (existingPdf : list SourcePage) (indices : list nat)
  : list DocPage :=
  flat_map
    (fun i => match nth_error existingPdf i with
              | Some p => [Copied p]
              | None => []
              end)
    indices.

(** [addPDFToPDF] (lines 211-235); [file] and [pdfDoc] are never null. *)
Definition addPDFToPDF (pdfDoc : PDFDocument) (file : File)
  : outcome PDFDocument :=
  try_catch
    (existingPdf <- await (PDFDocument_load (content file)) ;;
     let copiedPages := copyPages existingPdf (getPageIndices existingPdf) in
     match copiedPages with
     | [] => Throws (PDFError "PDF document has no pages" (Some (name file)))
     | _ => Returns (pdfDoc ++ copiedPages)%list
     end)
    (fun error =>
       match error with
       | PDFError _ _ => Throws error
       | OtherError _ =>
           Throws (PDFError ("Failed to merge PDF: " ++ message_or_unknown error)
                            (Some (name file)))
       end).

(** The [forEach] of lines 67-73. *)
Definition partition_step (acc : list File * list File) (file : File)
  : list File * list File :=
  let '(images, pdfs) := acc in
  if Js.startsWith (type_ file) "image/" then ((images ++ [file])%list, pdfs)
  else if String.eqb (type_ file) "application/pdf" then (images, (pdfs ++ [file])%list)
       else (images, pdfs).

Definition partitionFiles (files : list File) : list File * list File :=
  fold_left partition_step files ([], []).

(** The body of the loop over [pdfs] (lines 80-88): a [PDFError] passes
    through, any other error is wrapped. *)
Definition processPDF (pdfDoc : PDFDocument) (file : File)
  : outcome PDFDocument :=
  try_catch (addPDFToPDF pdfDoc file)
    (fun error =>
       match error with
       | PDFError _ _ => Throws error
       | OtherError _ =>
           Throws (PDFError ("Failed to process " ++ name file ++ ": "
                             ++ message_or_unknown error)
                            (Some (name file)))
       end).

(** [createPDF] (lines 55-99) *)
Definition createPDF (files : list File) (options : PDFOptions)
  : outcome Bytes :=
  match files with
  | [] => Throws (PDFError "No files provided" None)
  | _ =>
      pdfDoc <- match PDFDocument_create with
                | Some _ => Throws (PDFError "Failed to create PDF document" None)
                | None => Returns ([] : PDFDocument)
                end ;;
      let '(images, pdfs) := partitionFiles files in
      pdfDoc <- match images with
                | [] => Returns pdfDoc
                | _ => addImagesToDocument pdfDoc images options
                end ;;
      pdfDoc <- for_of processPDF pdfs pdfDoc ;;
      try_catch (await (save pdfDoc))
        (fun error =>
           Throws (PDFError ("Failed to save PDF document: "
                             ++ message_or_unknown error) None))
  end.

End Assembler.

Arguments Drawn {SourcePage} page.
Arguments Copied {SourcePage} page.

(** ** The layout controls ([ImageLayout], lines 17-19, 38, 73, 85, 119-124,
    141-143, 162-167, 178-180) *)

(** [Math.min] and [Math.max] on two numbers. *)
Definition Math_min (a b : Q) : Q := if Qle_bool a b then a else b.
Definition Math_max (a b : Q) : Q := if Qle_bool a b then b else a.

Inductive Side := side_top | side_right | side_bottom | side_left.

(** [{ ...options.margins, [side]: value }] *)
Definition set_margin (m : Margins) (side : Side) (value : Q) : Margins :=
  match side with
  | side_top => mkMargins value (right m) (bottom m) (left m)
  | side_right => mkMargins (top m) value (bottom m) (left m)
  | side_bottom => mkMargins (top m) (right m) value (left m)
  | side_left => mkMargins (top m) (right m) (bottom m) value
  end.

(** One interaction with the controls.  [input] is
    [Number(e.target.value)] of a number input, which is a finite number. *)
Inductive LayoutEvent :=
| ClickLayout (value : ImagesPerPage)
| ClickOrientation (value : Orientation)
| ChangeMargin (side : Side) (input : Q)
| ToggleBorder (checked : bool)
| ChangeBorderWidth (input : Q)
| ChangeBorderColor (value : string).

(** What the handler of the event passes to [onChange]. *)
Definition updateOptions (options : PDFOptions) (e : LayoutEvent) : PDFOptions :=
  match e with
  | ClickLayout v =>
      mkOptions v (margins options) (border options) (orientation options)
  | ClickOrientation o =>
      mkOptions (imagesPerPage options) (margins options) (border options) o
  | ChangeMargin side input =>
      let value := Math_max 0 (Math_min 100 input) in
      mkOptions (imagesPerPage options)
                (set_margin (margins options) side value)
                (border options) (orientation options)
  | ToggleBorder checked =>
      mkOptions (imagesPerPage options) (margins options)
                (mkBorder checked (border_width (border options))
                          (color (border options)))
                (orientation options)
  | ChangeBorderWidth input =>
      let value := Math_max (1 # 10) (Math_min 10 input) in
      mkOptions (imagesPerPage options) (margins options)
                (mkBorder (enabled (border options)) value
                          (color (border options)))
                (orientation options)
  | ChangeBorderColor value =>
      mkOptions (imagesPerPage options) (margins options)
                (mkBorder (enabled (border options))
                          (border_width (border options)) value)
                (orientation options)
  end.

(** ** The application state ([App], lines 9-75) *)

Record AppState := mkApp {
  files : list File;
  layoutOptions : PDFOptions
}.

Definition initialOptions : PDFOptions :=
  mkOptions One (mkMargins 20 20 20 20) (mkBorder false 1 "#000000") portrait.

Definition initialState : AppState := mkApp [] initialOptions.

Inductive AppEvent :=
| FilesDrop (newFiles : list File)
| RemoveFile (index : nat)
| LayoutChange (e : LayoutEvent)
| CreateClick.

(** [prevFiles.filter((_, i) => i !== index)] *)
Fixpoint remove_at {T} (index : nat) (xs : list T) : list T :=
  match xs, index with
  | [], _ => []
  | _ :: xs', O => xs'
  | x :: xs', S n => x :: remove_at n xs'
  end.

Definition has_error (file : File) : bool :=
  match validateFile (Some file) with Some _ => true | None => false end.

Section App.

Variable SourcePage : Type.
Variable Bytes : Type.
Variable embedJpg : list byte -> string + option PDFImage.
Variable embedPng : list byte -> string + option PDFImage.
Variable PDFDocument_load : list byte -> string + list SourcePage.
Variable save : PDFDocument SourcePage -> string + Bytes.
Variable PDFDocument_create : option string.

Definition PDFService_createPDF :=
  createPDF SourcePage Bytes embedJpg embedPng PDFDocument_load save
            PDFDocument_create.

(** The call of [PDFService.createPDF] that a click on the button makes
    (line 52), if any. *)
Definition merge_call (st : AppState) (ev : AppEvent)
  : option (list File * PDFOptions) :=
  match ev, files st with
  | CreateClick, _ :: _ => Some (files st, layoutOptions st)
  | _, _ => None
  end.

(** The state after an event has been handled.  The button is disabled
    while a merge runs, so events are handled one after the other. *)
Definition handle (st : AppState) (ev : AppEvent) : AppState :=
  match ev with
  | FilesDrop newFiles =>
      if existsb has_error newFiles then st
      else mkApp (files st ++ newFiles) (layoutOptions st)
  | RemoveFile index => mkApp (remove_at index (files st)) (layoutOptions st)
  | LayoutChange e => mkApp (files st) (updateOptions (layoutOptions st) e)
  | CreateClick =>
      match files st with
      | [] => st
      | _ =>
          match PDFService_createPDF (files st) (layoutOptions st) with
          | Returns _ => mkApp [] (layoutOptions st)
          | _ => st
          end
      end
  end.

(** The calls of [PDFService.createPDF] made while a sequence of events
    is handled. *)
Fixpoint merge_calls (st : AppState) (evs : list AppEvent)
  : list (list File * PDFOptions) :=
  match evs with
  | [] => []
  | ev :: evs' =>
      match merge_call st ev with
      | Some c => c :: merge_calls (handle st ev) evs'
      | None => merge_calls (handle st ev) evs'
      end
  end.

End App.

(** Margins within [0,100] and border width within [0.1,10]. *)
Definition in_range (options : PDFOptions) : Prop :=
  0 <= top (margins options) <= 100 /\
  0 <= right (margins options) <= 100 /\
  0 <= bottom (margins options) <= 100 /\
  0 <= left (margins options) <= 100 /\
  (1 # 10) <= border_width (border options) <= 10.

(** ** Vocabulary of the statements *)

(** Some two consecutive characters of [s] are both word characters. *)
Fixpoint has_ww_pair (s : string) : bool :=
  match s with
  | EmptyString => false
  | String a tl =>
      match tl with
      | EmptyString => false
      | String b _ => (Js.is_word a && Js.is_word b) || has_ww_pair tl
      end
  end.

(** The colour string "#" followed by six characters. *)
Definition hex_color (a b c d e f : ascii) : string :=
  String "#" (String a (String b (String c (String d (String e
    (String f EmptyString)))))).

(** The images drawn on a page, in drawing order. *)
Definition page_images (page : PDFPage) : list PDFImage :=
  flat_map (fun op => match op with
                      | DrawImage image _ => [image]
                      | DrawRectangle _ _ _ => []
                      end)
           (page_ops page).

(** A page shows a chunk of files: the images drawn on it are, in order,
    what the files of the chunk decode to. *)
Definition page_shows (decode : File -> outcome PDFImage) (page : PDFPage)
  (chunk : list File) : Prop :=
  Forall2 (fun file image => decode file = Returns image)
          chunk (page_images page).

(** A document file loads as a non-empty list of pages. *)
Definition loads_as {SourcePage : Type}
  (load : list byte -> string + list SourcePage)
  (file : File) (source : list SourcePage) : Prop :=
  load (content file) = inr source /\ source <> [].

(** The file decodes to an image that has pixels. *)
Definition decodes (decode : File -> outcome PDFImage) (file : File) : Prop :=
  exists image,
    decode file = Returns image
    /\ 0 < image_width image /\ 0 < image_height image.

(** The border is off, or its colour is what a colour input yields:
    "#" and six hexadecimal digits. *)
Definition border_draws (b : Border) : Prop :=
  enabled b = false
  \/ exists c1 c2 c3 c4 c5 c6,
       Js.is_hex c1 = true /\ Js.is_hex c2 = true /\ Js.is_hex c3 = true
       /\ Js.is_hex c4 = true /\ Js.is_hex c5 = true /\ Js.is_hex c6 = true
       /\ color b = hex_color c1 c2 c3 c4 c5 c6.

(** The two classes of inputs of the assembler (section 4.4, step 1). *)
Definition is_image (file : File) : bool := Js.startsWith (type_ file) "image/".
Definition is_pdf (file : File) : bool :=
  negb (is_image file) && String.eqb (type_ file) "application/pdf".

(** [ceil(n / k)] on natural numbers. *)
Definition ceil_div (n k : nat) : nat := ((n + k - 1) / k)%nat.

(** Section 4.4, step 2, in the specification's words: consecutive chunks
    of size [k] in input order, the [j]-th one starting at [j * k]. *)
Definition chunk_at {T} (xs : list T) (k j : nat) : list T :=
  firstn k (skipn (j * k) xs).

Definition consecutive_chunks {T} (xs : list T) (k : nat) : list (list T) :=
  map (chunk_at xs k) (seq 0 (ceil_div (List.length xs) k)).

(** [s] ends with [suffix]. *)
Definition ends_with (s suffix : string) : Prop :=
  exists stem, s = (stem ++ suffix)%string.

(** The file passes the validator. *)
Definition valid_file (file : File) : Prop := validateFile (Some file) = None.

Definition get_margin (m : Margins) (side : Side) : Q :=
  match side with
  | side_top => top m
  | side_right => right m
  | side_bottom => bottom m
  | side_left => left m
  end.

(** A colour component as [rgb] can receive it: [NaN], or a number
    between 0 and 1. *)
Definition NaN_or_unit (c : option Q) : Prop :=
  match c with
  | None => True
  | Some q => 0 <= q <= 1
  end.

(** All 256 characters. *)
Definition all_ascii : list ascii := map ascii_of_nat (seq 0 256).

(** For two word characters, [parseInt] of the pair is [NaN] or a number
    from 0 to 255. *)
Definition pair_parses (a b : ascii) : bool :=
  negb (Js.is_word a && Js.is_word b)
  || match Js.parseInt16 (String a (String b EmptyString)) with
     | None => true
     | Some n => ((0 <=? n) && (n <=? 255))%Z
     end.

(** [m || 'Unknown error'] for the message of a library error. *)
Definition or_unknown (m : string) : string :=
  match m with
  | EmptyString => "Unknown error"
  | _ => m
  end.

(** The six kinds of errors of the assembler: no files; the document
    could not be created; an image page failed; a PDF file did not load;
    a PDF file has no page; the document could not be saved. *)
Definition error_kind {SourcePage Bytes : Type}
  (load : list byte -> string + list SourcePage)
  (save : list (DocPage SourcePage) -> string + Bytes)
  (create : option string) (files : list File) (e : JsError) : Prop :=
  (files = [] /\ e = PDFError "No files provided" None)
  \/ (files <> [] /\ create <> None
      /\ e = PDFError "Failed to create PDF document" None)
  \/ (filter is_image files <> []
      /\ e = PDFError "Only jpg, pdf, png are allowed" None)
  \/ (exists file m,
        In file (filter is_pdf files) /\ load (content file) = inl m
        /\ e = PDFError ("Failed to merge PDF: " ++ or_unknown m)
                        (Some (name file)))
  \/ (exists file,
        In file (filter is_pdf files) /\ load (content file) = inr []
        /\ e = PDFError "PDF document has no pages" (Some (name file)))
  \/ (exists doc m,
        save doc = inl m
        /\ e = PDFError ("Failed to save PDF document: " ++ or_unknown m) None).

(** A call of the assembler (here [create_pdf]) on a non-empty list of
    validated files, each an image or a PDF, that does not end in the
    no-files error. *)
Definition good_call {Bytes : Type}
  (create_pdf : list File -> PDFOptions -> outcome Bytes)
  (call : list File * PDFOptions) : Prop :=
  fst call <> []
  /\ Forall valid_file (fst call)
  /\ Forall (fun file => is_image file = true \/ is_pdf file = true) (fst call)
  /\ create_pdf (fst call) (snd call)
     <> Throws (PDFError "No files provided" None).






(** [xs.filter((_, i) => i !== index)], with the indices written out. *)
Definition filter_index {T : Type} (index : nat) (xs : list T) : list T :=
  map snd
      (filter (fun p => negb (Nat.eqb (fst p) index))
              (combine (seq 0 (List.length xs)) xs)).

(** ** A small instance of the library, to run the assembler on examples:
    an image decodes when it has at least one byte, to a 4 x 3 image named
    by that byte; a document has one page per byte and does not load when
    empty; saving yields the page list itself. *)
Module Sample.

Definition embed (bytes : list byte) : string + option PDFImage :=
  match bytes with
  | [] => inl "unexpected end of image data"
  | b :: _ => inr (Some (mkImage (String (ascii_of_byte b) EmptyString) 4 3))
  end.

Definition load (bytes : list byte) : string + list byte :=
  match bytes with
  | [] => inl "No PDF header found"
  | _ => inr bytes
  end.

Definition save (doc : PDFDocument byte) : string + PDFDocument byte :=
  inr doc.

Definition createPDF := createPDF byte (PDFDocument byte) embed embed load save None.

Definition embedImageInPage := embedImageInPage embed embed.

Definition addImagesToDocument := addImagesToDocument byte embed embed.

Definition decodeImage := decodeImage embed embed.

(** A lower-casing that turns one character into two, as JavaScript's
    does with U+0130 (a capital I with a dot above becomes an i followed
    by a combining dot); the code unit 221 stands for that character. *)
Fixpoint lengthening_lower (s : string) : string :=
  match s with
  | EmptyString => EmptyString
  | String c s' =>
      if (Js.code c =? 221)%N
      then String "i" (String "'" (lengthening_lower s'))
      else String (Js.lower_char c) (lengthening_lower s')
  end.

(** The name made of that character followed by ".png". *)
Definition dotted_name : string := String (ascii_of_nat 221) ".png".

Definition fileA := mkFile "A.png" "image/png" 1 [x41].
Definition fileB := mkFile "B.jpg" "image/jpeg" 1 [x42].
Definition fileC := mkFile "C.png" "image/png" 1 [x43].
Definition fileD := mkFile "D.jpeg" "image/jpeg" 1 [x44].
Definition fileP := mkFile "P.pdf" "application/pdf" 2 [x01; x02].
Definition fileQ := mkFile "Q.pdf" "application/pdf" 1 [x03].

(** An image file without bytes: it does not decode. *)
Definition broken := mkFile "photo.png" "image/png" 0 [].

Definition image_of (b : byte) : PDFImage :=
  mkImage (String (ascii_of_byte b) EmptyString) 4 3.

Definition options (k : ImagesPerPage) : PDFOptions :=
  mkOptions k (mkMargins 20 20 20 20) (mkBorder false 1 "#000000") portrait.

End Sample.

(** * Properties *)

(** ** The validator *)

Lemma array_includes_In (xs : list string) (x : string) :
  Js.array_includes xs x = true <-> In x xs.
Proof.
  unfold Js.array_includes. rewrite existsb_exists. split.
  - intros [y [Hy Heq]]. apply String.eqb_eq in Heq. now subst.
  - intros H. exists x. split; [assumption | apply String.eqb_refl].
Qed.

Lemma array_includes_not_In (xs : list string) (x : string) :
  Js.array_includes xs x = false <-> ~ In x xs.
Proof.
  rewrite <- array_includes_In. destruct (Js.array_includes xs x); split;
    intros; congruence.
Qed.

Lemma array_includes_spec (xs : list string) (x : string) :
  reflect (In x xs) (Js.array_includes xs x).
Proof.
  destruct (Js.array_includes xs x) eqn:E; constructor.
  - now apply array_includes_In.
  - now apply array_includes_not_In.
Qed.

Lemma append_cancel_l (p a b : string) : (p ++ a = p ++ b)%string -> a = b.
Proof.
  induction p as [|c p IH]; simpl; intros H; [assumption|].
  injection H as H. now apply IH.
Qed.

Lemma messages_differ (file : File) :
  not_supported_message file <> too_large_message file.
Proof.
  unfold not_supported_message, too_large_message. intros H.
  apply append_cancel_l in H. apply append_cancel_l in H. discriminate H.
Qed.

Example fileExtension_upper :
  fileExtension (mkFile "Photo.JPG" "image/jpeg" 1 []) = ".jpg".
Proof. reflexivity. Qed.

Example fileExtension_last_dot :
  fileExtension (mkFile "archive.tar.PDF" "application/pdf" 1 []) = ".pdf".
Proof. reflexivity. Qed.

(** Without a dot [lastIndexOf] is [-1] and [slice(-1)] is the last
    character. *)
Example fileExtension_no_dot :
  fileExtension (mkFile "pdf" "application/pdf" 1 []) = "f".
Proof. reflexivity. Qed.

(** The three cases of the specification's validator test. *)
Example validateFile_101MiB :
  validateFile (Some (mkFile "a.png" "image/png" (101 * 1024 * 1024) []))
  = Some "File a.png is too large. Maximum size is 100MB".
Proof. reflexivity. Qed.

Example validateFile_mismatch :
  validateFile (Some (mkFile "a.txt" "image/png" 1024 []))
  = Some "File a.txt is not supported. Please use PDF, JPG, JPEG, or PNG files".
Proof. reflexivity. Qed.

Example validateFile_png :
  validateFile (Some (mkFile "a.png" "image/png" 1024 [])) = None.
Proof. reflexivity. Qed.

(** *** The extension, for any lower-casing *)

Lemma validateFile_with_None_iff (toLowerCase : string -> string) (f : File) :
  validateFile_with toLowerCase (Some f) = None <->
  (size f <= MAX_FILE_SIZE)%Z /\ In (type_ f) supportedTypes
  /\ In (fileExtension_with toLowerCase f) supportedExtensions.
Proof.
  unfold validateFile_with.
  destruct (Z.gtb_spec (size f) MAX_FILE_SIZE) as [Hbig | Hsmall].
  - split; [discriminate | intros [H _]; lia].
  - destruct (array_includes_spec supportedTypes (type_ f)) as [Ht | Ht];
    destruct (array_includes_spec supportedExtensions
                (fileExtension_with toLowerCase f))
      as [He | He]; cbn [negb orb]; split; try discriminate; tauto.
Qed.

Lemma validateFile_with_rejects (toLowerCase : string -> string) (f : File) :
  (size f <= MAX_FILE_SIZE)%Z ->
  ~ In (type_ f) supportedTypes
  \/ ~ In (fileExtension_with toLowerCase f) supportedExtensions ->
  validateFile_with toLowerCase (Some f) = Some (not_supported_message f).
Proof.
  intros Hs H. unfold validateFile_with.
  destruct (Z.gtb_spec (size f) MAX_FILE_SIZE) as [Hbig | _]; [lia|].
  destruct (array_includes_spec supportedTypes (type_ f)) as [Ht | Ht];
    [|reflexivity].
  destruct (array_includes_spec supportedExtensions
              (fileExtension_with toLowerCase f)) as [He | He];
    [tauto | reflexivity].
Qed.

Lemma length_append (s1 s2 : string) :
  String.length (s1 ++ s2) = (String.length s1 + String.length s2)%nat.
Proof. induction s1 as [|c s1 IH]; cbn; [reflexivity | now rewrite IH]. Qed.

Lemma drop_append (s1 s2 : string) :
  Js.drop (String.length s1) (s1 ++ s2) = s2.
Proof. induction s1 as [|c s1 IH]; [now destruct s2 | exact IH]. Qed.

Lemma drop_suffix (n : nat) : forall s, ends_with s (Js.drop n s).
Proof.
  induction n as [|n IH]; intros s.
  - now exists EmptyString.
  - destruct s as [|c s]; [now exists EmptyString|].
    destruct (IH s) as [stem E]. exists (String c stem). cbn. now f_equal.
Qed.

Lemma drop_split (n : nat) : forall s,
  (n <= String.length s)%nat ->
  exists stem, s = (stem ++ Js.drop n s)%string /\ String.length stem = n.
Proof.
  induction n as [|n IH]; intros s Hn.
  - now exists EmptyString.
  - destruct s as [|c s]; [cbn in Hn; lia|].
    destruct (IH s) as (stem & E & Hl); [cbn in Hn; lia|].
    exists (String c stem). cbn. split; [now f_equal | now rewrite Hl].
Qed.

Lemma length_drop (n : nat) : forall s,
  String.length (Js.drop n s) = (String.length s - n)%nat.
Proof.
  induction n as [|n IH]; intros s; [cbn; lia|].
  destruct s as [|c s]; [reflexivity | apply IH].
Qed.

Lemma lastIndexOf_from_append (c : ascii) (s1 s2 : string) : forall i acc,
  Js.lastIndexOf_from c (s1 ++ s2) i acc
  = Js.lastIndexOf_from c s2 (i + Z.of_nat (String.length s1))%Z
      (Js.lastIndexOf_from c s1 i acc).
Proof.
  induction s1 as [|a s1 IH]; intros i acc.
  - cbn. now rewrite Z.add_0_r.
  - cbn [append Js.lastIndexOf_from String.length]. rewrite IH.
    f_equal. lia.
Qed.

Lemma lastIndexOf_from_lower_bound (c : ascii) (s : string) : forall i acc,
  (-1 <= acc)%Z -> (0 <= i)%Z -> (-1 <= Js.lastIndexOf_from c s i acc)%Z.
Proof.
  induction s as [|a s IH]; intros i acc Hacc Hi; [exact Hacc|].
  cbn [Js.lastIndexOf_from]. apply IH; [|lia].
  destruct (Ascii.eqb a c); lia.
Qed.

(** The last dot of a string that ends with a supported extension is the
    dot of that extension. *)
Lemma lastIndexOf_extension (stem ext : string) :
  In ext supportedExtensions ->
  Js.lastIndexOf (stem ++ ext) "." = Z.of_nat (String.length stem).
Proof.
  intros Hin. unfold Js.lastIndexOf. rewrite lastIndexOf_from_append.
  cbn in Hin.
  destruct Hin as [<- | [<- | [<- | [<- | [<- | [<- | [<- | []]]]]]]];
    reflexivity.
Qed.

Lemma supported_extension_length (ext : string) :
  In ext supportedExtensions -> (4 <= String.length ext)%nat.
Proof.
  intros Hin. cbn in Hin.
  destruct Hin as [<- | [<- | [<- | [<- | [<- | [<- | [<- | []]]]]]]];
    cbn; lia.
Qed.

(** When the slice of line 46 is a supported extension, it was taken at
    the last dot of the lower-cased name, which is at the index of the
    last dot of the name. *)
Lemma extension_position (toLowerCase : string -> string) (f : File) :
  In (fileExtension_with toLowerCase f) supportedExtensions ->
  exists stem,
    toLowerCase (name f)
    = (stem ++ fileExtension_with toLowerCase f)%string
    /\ Js.lastIndexOf (name f) "." = Z.of_nat (String.length stem)
    /\ Js.lastIndexOf (toLowerCase (name f)) "."
       = Z.of_nat (String.length stem).
Proof.
  intros Hin. pose proof (supported_extension_length _ Hin) as Hlen.
  unfold fileExtension_with, Js.slice, Js.length in *.
  set (lowered := toLowerCase (name f)) in *.
  set (idx := Js.lastIndexOf (name f) ".") in *.
  assert (Hidx : (-1 <= idx)%Z)
    by (apply lastIndexOf_from_lower_bound; lia).
  rewrite length_drop in Hlen.
  destruct (Z.ltb_spec idx 0) as [Hneg | Hpos]; [lia|].
  assert (Hle : (idx <= Z.of_nat (String.length lowered))%Z) by lia.
  rewrite Z.min_l in Hin |- * by lia.
  destruct (drop_split (Z.to_nat idx) lowered) as (stem & E & Hs); [lia|].
  exists stem. split; [exact E|].
  assert (Hi : idx = Z.of_nat (String.length stem)) by lia.
  split; [exact Hi|].
  rewrite E at 1. now apply lastIndexOf_extension.
Qed.

(** *** The type and extension test *)

(** C3, as stated, fails twice: a file declared [image/jpg], a type outside
    {image/jpeg, image/png, application/pdf}, is accepted; and a file of an
    unsupported type that is too large gets the too-large message, not the
    not-supported one. *)
Lemma validateFile_accepts_image_jpg :
  let f := mkFile "a.jpg" "image/jpg" 1024 [] in
  let g := mkFile "big.gif" "image/gif" (100 * 1024 * 1024 + 1) [] in
  (~ In (type_ f) ["image/jpeg"; "image/png"; "application/pdf"]
   /\ validateFile (Some f) = None
   /\ validateFile (Some f) <> Some (not_supported_message f))
  /\ (~ In (type_ g) ["image/jpeg"; "image/png"; "application/pdf"]
      /\ validateFile (Some g) = Some (too_large_message g)
      /\ validateFile (Some g) <> Some (not_supported_message g)).
Proof.
  simpl. split; (split; [|split]);
    try (intros [H | [H | [H | []]]]; discriminate H);
    try reflexivity; discriminate.
Qed.

(** C3 (amended): whatever lower-casing does, [validateFile] returns no
    error only if the declared type is one of image/jpeg, image/jpg,
    image/png, application/pdf and the lower-cased name ends, from its
    last dot, with one of the seven extensions; a file within the size
    limit that fails either condition is rejected with the not-supported
    message, in particular every such file whose type is outside the
    four. *)
Theorem validateFile_type_and_extension
  (toLowerCase : string -> string) (f : File) :
  (validateFile_with toLowerCase (Some f) = None ->
   In (type_ f) ["image/jpeg"; "image/jpg"; "image/png"; "application/pdf"]
   /\ exists stem ext,
        In ext [".pdf"; ".jpg"; ".jpeg"; ".png"; ".jpe"; ".jif"; ".jfif"]
        /\ toLowerCase (name f) = (stem ++ ext)%string
        /\ Js.lastIndexOf (toLowerCase (name f)) "."
           = Z.of_nat (String.length stem))
  /\ ((size f <= 100 * 1024 * 1024)%Z ->
      ~ In (type_ f) ["image/jpeg"; "image/jpg"; "image/png"; "application/pdf"]
      \/ ~ (exists ext,
              In ext [".pdf"; ".jpg"; ".jpeg"; ".png"; ".jpe"; ".jif"; ".jfif"]
              /\ ends_with (toLowerCase (name f)) ext) ->
      validateFile_with toLowerCase (Some f)
      = Some ("File " ++ name f
              ++ " is not supported. Please use PDF, JPG, JPEG, or PNG files")%string)
  /\ ((size f <= 100 * 1024 * 1024)%Z ->
      ~ In (type_ f) ["image/jpeg"; "image/jpg"; "image/png"; "application/pdf"] ->
      validateFile_with toLowerCase (Some f) = Some (not_supported_message f)).
Proof.
  change (100 * 1024 * 1024)%Z with MAX_FILE_SIZE.
  change ["image/jpeg"; "image/jpg"; "image/png"; "application/pdf"]
    with supportedTypes.
  change [".pdf"; ".jpg"; ".jpeg"; ".png"; ".jpe"; ".jif"; ".jfif"]
    with supportedExtensions.
  split; [|split].
  - intros H. apply validateFile_with_None_iff in H.
    destruct H as (_ & Ht & He). split; [exact Ht|].
    destruct (extension_position toLowerCase f He) as (stem & E & _ & Hl).
    now exists stem, (fileExtension_with toLowerCase f).
  - intros Hs H. apply validateFile_with_rejects; [assumption|].
    destruct H as [H | H]; [now left | right].
    intros He. apply H. exists (fileExtension_with toLowerCase f).
    split; [assumption | apply drop_suffix].
  - intros Hs H. apply validateFile_with_rejects; [assumption | now left].
Qed.

Lemma validateFile_type_and_extension_witness :
  let f := mkFile "scan.pdf" "text/plain" 2048 [] in
  validateFile (Some f)
  = Some "File scan.pdf is not supported. Please use PDF, JPG, JPEG, or PNG files".
Proof.
  intros f.
  apply (proj1 (proj2 (validateFile_type_and_extension Js.toLowerCase f))).
  - simpl. lia.
  - left. simpl. intros [H | [H | [H | [H | []]]]]; discriminate H.
Defined.

(** *** The size test *)

(** C9, as stated, fails on the message: the text starts with "File ". *)
Lemma validateFile_too_large_text :
  let f := mkFile "a.png" "image/png" (100 * 1024 * 1024 + 1) [] in
  (size f > 100 * 1024 * 1024)%Z
  /\ validateFile (Some f)
     <> Some (name f ++ " is too large. Maximum size is 100MB")%string
  /\ validateFile (Some f)
     = Some "File a.png is too large. Maximum size is 100MB".
Proof.
  simpl. split; [reflexivity | split; [discriminate | reflexivity]].
Qed.

(** C9 (amended): whatever lower-casing does, [validateFile] returns the
    too-large message exactly when the size exceeds 100 * 1024 * 1024
    bytes, and the message is "File <name> is too large. Maximum size is
    100MB"; a file at or below the limit passes the size test: it is
    accepted or gets the not-supported message. *)
Theorem validateFile_size (toLowerCase : string -> string) (f : File) :
  (validateFile_with toLowerCase (Some f)
   = Some ("File " ++ name f ++ " is too large. Maximum size is 100MB")%string
   <-> (size f > 100 * 1024 * 1024)%Z)
  /\ ((size f <= 100 * 1024 * 1024)%Z ->
      validateFile_with toLowerCase (Some f) = None
      \/ validateFile_with toLowerCase (Some f)
         = Some (not_supported_message f)).
Proof.
  change (100 * 1024 * 1024)%Z with MAX_FILE_SIZE.
  change ("File " ++ name f ++ " is too large. Maximum size is 100MB")%string
    with (too_large_message f).
  unfold validateFile_with.
  destruct (Z.gtb_spec (size f) MAX_FILE_SIZE) as [Hbig | Hsmall].
  - split; [split; [lia | reflexivity] | lia].
  - split.
    + split; [|lia]. intros H.
      destruct (negb _ || negb _); [|discriminate H].
      exfalso. apply (messages_differ f). congruence.
    + intros _. destruct (negb _ || negb _); [now right | now left].
Qed.

Lemma validateFile_size_witness :
  let f := mkFile "a.png" "image/png" (100 * 1024 * 1024) [] in
  validateFile (Some f) = None
  \/ validateFile (Some f) = Some (not_supported_message f).
Proof.
  intros f. apply (proj2 (validateFile_size Js.toLowerCase f)).
  simpl. lia.
Defined.

(** ** Empty input *)

(** C8: whatever the options (and whatever the library does), assembling
    the empty list throws the no-files error, before [PDFDocument.create]
    is reached, and so returns no bytes. *)
Theorem createPDF_no_files
  (SourcePage Bytes : Type)
  (embedJpg embedPng : list byte -> string + option PDFImage)
  (PDFDocument_load : list byte -> string + list SourcePage)
  (save : PDFDocument SourcePage -> string + Bytes)
  (PDFDocument_create : option string) (options : PDFOptions) :
  createPDF SourcePage Bytes embedJpg embedPng PDFDocument_load save
            PDFDocument_create [] options
  = Throws (PDFError "No files provided" None)
  /\ forall bytes,
       createPDF SourcePage Bytes embedJpg embedPng PDFDocument_load save
                 PDFDocument_create [] options <> Returns bytes.
Proof. split; [reflexivity | discriminate]. Qed.

(** ** Border colour *)

Lemma is_hex_is_word (c : ascii) : Js.is_hex c = true -> Js.is_word c = true.
Proof.
  destruct c as [[] [] [] [] [] [] [] []]; vm_compute; congruence.
Qed.

Lemma is_hex_value (c : ascii) :
  Js.is_hex c = true -> exists d, Js.hex_value c = Some d /\ (0 <= d <= 15)%Z.
Proof.
  destruct c as [[] [] [] [] [] [] [] []]; vm_compute; try congruence;
    intros _; eexists; (split; [reflexivity | split; congruence]).
Qed.

Lemma is_hex_not_x (c : ascii) :
  Js.is_hex c = true -> c <> "x"%char /\ c <> "X"%char
  /\ c <> "-"%char /\ c <> "+"%char /\ Js.is_space c = false.
Proof.
  destruct c as [[] [] [] [] [] [] [] []]; vm_compute; intros H;
    try discriminate H; repeat split; congruence.
Qed.

(** [parseInt] of two hexadecimal digits is their value in base 16. *)
Lemma parseInt16_pair (a b : ascii) :
  Js.is_hex a = true -> Js.is_hex b = true ->
  exists n, Js.parseInt16 (String a (String b EmptyString)) = Some n
            /\ (0 <= n <= 255)%Z.
Proof.
  intros Ha Hb.
  destruct (is_hex_value a Ha) as (da & Hda & Ra).
  destruct (is_hex_value b Hb) as (db & Hdb & Rb).
  exists (16 * da + db)%Z. split; [|lia].
  destruct (is_hex_not_x a Ha) as (_ & _ & Hm & Hp & Hs).
  destruct (is_hex_not_x b Hb) as (Hx & HX & _).
  unfold Js.parseInt16. cbn [Js.trimStart]. rewrite Hs.
  assert (Hstrip : Js.strip_0x (String a (String b EmptyString))
                   = String a (String b EmptyString)).
  { unfold Js.strip_0x.
    destruct a as [[] [] [] [] [] [] [] []]; try reflexivity.
    destruct b as [[] [] [] [] [] [] [] []]; try reflexivity; congruence. }
  assert (Hgo : Js.hex_digits (String a (String b EmptyString)) None
                = Some (16 * da + db)%Z).
  { cbn [Js.hex_digits]. rewrite Hda, Hdb. reflexivity. }
  destruct a as [[] [] [] [] [] [] [] []];
    try (rewrite Hstrip; exact Hgo); congruence.
Qed.

Lemma component_in_unit (n : Z) :
  (0 <= n <= 255)%Z -> 0 <= inject_Z n / 255 <= 1.
Proof.
  intros Hn. unfold Qle, Qdiv, Qmult, Qinv, inject_Z. simpl. lia.
Qed.

Lemma rgb_in_unit (r g b : Q) :
  0 <= r <= 1 -> 0 <= g <= 1 -> 0 <= b <= 1 ->
  rgb (Some r) (Some g) (Some b) = Returns (mkColor r g b).
Proof.
  intros [Hr0 Hr1] [Hg0 Hg1] [Hb0 Hb1]. unfold rgb.
  apply Qle_bool_iff in Hr0, Hr1, Hg0, Hg1, Hb0, Hb1.
  now rewrite Hr0, Hr1, Hg0, Hg1, Hb0, Hb1.
Qed.

Lemma match_all_ww_no_pair (s : string) :
  has_ww_pair s = false -> Js.match_all_ww s = [].
Proof.
  induction s as [|a tl IH]; [reflexivity|].
  destruct tl as [|b rest]; [reflexivity|].
  intros H. change (has_ww_pair (String a (String b rest)))
    with ((Js.is_word a && Js.is_word b) || has_ww_pair (String b rest)) in H.
  apply orb_false_iff in H. destruct H as [Hab Htl].
  change (Js.match_all_ww (String a (String b rest)))
    with (if Js.is_word a && Js.is_word b
          then String a (String b EmptyString) :: Js.match_all_ww rest
          else Js.match_all_ww (String b rest)).
  rewrite Hab. now apply IH.
Qed.

(** The converse: a pair of word characters is found. *)
Lemma match_ww_pair (s : string) :
  has_ww_pair s = true -> Js.match_ww s <> None.
Proof.
  unfold Js.match_ww. induction s as [|a tl IH]; [discriminate|].
  destruct tl as [|b rest]; [discriminate|].
  intros H. change (has_ww_pair (String a (String b rest)))
    with ((Js.is_word a && Js.is_word b) || has_ww_pair (String b rest)) in H.
  change (Js.match_all_ww (String a (String b rest)))
    with (if Js.is_word a && Js.is_word b
          then String a (String b EmptyString) :: Js.match_all_ww rest
          else Js.match_all_ww (String b rest)).
  destruct (Js.is_word a && Js.is_word b); [discriminate|].
  now apply IH.
Qed.

Lemma match_ww_hex_color (a b c d e f : ascii) :
  Js.is_hex a = true -> Js.is_hex b = true -> Js.is_hex c = true ->
  Js.is_hex d = true -> Js.is_hex e = true -> Js.is_hex f = true ->
  Js.match_ww (hex_color a b c d e f)
  = Some [String a (String b EmptyString); String c (String d EmptyString);
          String e (String f EmptyString)].
Proof.
  intros Ha Hb Hc Hd He Hf.
  apply is_hex_is_word in Ha, Hb, Hc, Hd, He, Hf.
  unfold Js.match_ww, hex_color. cbn [Js.match_all_ww].
  replace (Js.is_word "#") with false by reflexivity.
  cbn [andb]. now rewrite Ha, Hb, Hc, Hd, He, Hf.
Qed.

Lemma color_components_hex (a b c d e f : ascii) :
  Js.is_hex a = true -> Js.is_hex b = true -> Js.is_hex c = true ->
  Js.is_hex d = true -> Js.is_hex e = true -> Js.is_hex f = true ->
  exists r g bl,
    color_components (hex_color a b c d e f) = Some [Some r; Some g; Some bl]
    /\ 0 <= r <= 1 /\ 0 <= g <= 1 /\ 0 <= bl <= 1.
Proof.
  intros Ha Hb Hc Hd He Hf.
  destruct (parseInt16_pair a b Ha Hb) as (n1 & P1 & R1).
  destruct (parseInt16_pair c d Hc Hd) as (n2 & P2 & R2).
  destruct (parseInt16_pair e f He Hf) as (n3 & P3 & R3).
  exists (inject_Z n1 / 255), (inject_Z n2 / 255), (inject_Z n3 / 255).
  split.
  - unfold color_components.
    rewrite (match_ww_hex_color a b c d e f Ha Hb Hc Hd He Hf).
    cbn [option_map map]. now rewrite P1, P2, P3.
  - split; [|split]; now apply component_in_unit.
Qed.

Lemma drawBorder_components (page : PDFPage) (b : Box) (d : Dimensions)
  (r g bl : Q) :
  enabled (dim_border d) = true ->
  color_components (color (dim_border d)) = Some [Some r; Some g; Some bl] ->
  0 <= r <= 1 -> 0 <= g <= 1 -> 0 <= bl <= 1 ->
  drawBorder page b d
  = Returns (draw page
               (DrawRectangle
                  (mkBox (box_x b - border_width (dim_border d))
                         (box_y b - border_width (dim_border d))
                         (box_width b + border_width (dim_border d) * 2)
                         (box_height b + border_width (dim_border d) * 2))
                  (border_width (dim_border d)) (mkColor r g bl))).
Proof.
  intros Hen Hc Ur Ug Ub. unfold drawBorder.
  rewrite Hen, Hc. cbn [component nth_error].
  now rewrite (rgb_in_unit _ _ _ Ur Ug Ub).
Qed.

(** C10: for a colour "#" followed by six hexadecimal digits, the match
    has exactly three pairs, the three components lie in [0,1], [rgb]
    accepts them and the border is drawn; for a colour without two
    consecutive word characters the match is null and drawing the border
    throws. *)
Theorem border_color_parsing :
  (forall a b c d e f,
     Js.is_hex a = true -> Js.is_hex b = true -> Js.is_hex c = true ->
     Js.is_hex d = true -> Js.is_hex e = true -> Js.is_hex f = true ->
     exists ps r g bl,
       Js.match_ww (hex_color a b c d e f) = Some ps
       /\ List.length ps = 3%nat
       /\ color_components (hex_color a b c d e f)
          = Some [Some r; Some g; Some bl]
       /\ 0 <= r <= 1 /\ 0 <= g <= 1 /\ 0 <= bl <= 1
       /\ forall page box dimensions,
            enabled (dim_border dimensions) = true ->
            color (dim_border dimensions) = hex_color a b c d e f ->
            exists rect,
              drawBorder page box dimensions
              = Returns (draw page
                           (DrawRectangle rect
                              (border_width (dim_border dimensions))
                              (mkColor r g bl))))
  /\ (forall s,
        has_ww_pair s = false ->
        Js.match_ww s = None
        /\ forall page box dimensions,
             enabled (dim_border dimensions) = true ->
             color (dim_border dimensions) = s ->
             exists e, drawBorder page box dimensions = Throws e).
Proof.
  split.
  - intros a b c d e f Ha Hb Hc Hd He Hf.
    destruct (color_components_hex a b c d e f Ha Hb Hc Hd He Hf)
      as (r & g & bl & Hc3 & U1 & U2 & U3).
    exists [String a (String b EmptyString); String c (String d EmptyString);
            String e (String f EmptyString)], r, g, bl.
    split; [now apply match_ww_hex_color|]. split; [reflexivity|].
    split; [exact Hc3|]. repeat (split; [assumption|]).
    intros page box dimensions Hen Hcol. eexists.
    apply drawBorder_components; [assumption | now rewrite Hcol | assumption..].
  - intros s Hs. apply match_all_ww_no_pair in Hs.
    assert (Hm : Js.match_ww s = None) by (unfold Js.match_ww; now rewrite Hs).
    split; [exact Hm|].
    intros page box dimensions Hen Hcol. unfold drawBorder, color_components.
    rewrite Hen, Hcol, Hm. cbn [option_map]. eexists. reflexivity.
Qed.

Lemma border_color_parsing_witness :
  (exists ps r g bl,
     Js.match_ww "#1aF09c" = Some ps /\ List.length ps = 3%nat
     /\ color_components "#1aF09c" = Some [Some r; Some g; Some bl]
     /\ 0 <= r <= 1 /\ 0 <= g <= 1 /\ 0 <= bl <= 1)
  /\ Js.match_ww "#-#" = None.
Proof.
  split.
  - destruct (proj1 border_color_parsing "1" "a" "F" "0" "9" "c"
                eq_refl eq_refl eq_refl eq_refl eq_refl eq_refl)%char
      as (ps & r & g & bl & H1 & H2 & H3 & H4 & H5 & H6 & _).
    exists ps, r, g, bl. repeat split; tauto.
  - apply (proj2 border_color_parsing "#-#" eq_refl).
Defined.

(** ** Slot rectangles *)

Lemma Math_floor_div_pos (a b : Z) :
  (0 < b)%Z -> Math_floor_div a b = (a / b)%Z.
Proof.
  intros Hb. unfold Math_floor_div. destruct b as [|p|p]; try lia.
  unfold Qdiv, Qinv, Qmult, inject_Z, Qfloor. simpl.
  now rewrite Z.mul_1_r.
Qed.

Lemma Js_rem_nonneg (a b : Z) :
  (0 <= a)%Z -> (0 < b)%Z -> Js_rem a b = (a mod b)%Z.
Proof. intros Ha Hb. unfold Js_rem. apply Z.rem_mod_nonneg; lia. Qed.

(** C4: for every page size, margins, number of images per page and slot
    index, the rectangle computed in [addImagesToDocument] is the one of the
    specification's formulas, and it is the rectangle handed to
    [embedImageInPage] for the image at that index. *)
Theorem slotDimensions_spec
  (options : PDFOptions) (pageWidth pageHeight : Q) (i : nat) :
  let d := slotDimensions options pageWidth pageHeight i in
  let r := slotRect_spec pageWidth pageHeight (margins options)
                         (imagesPerPage options) i in
  dim_x d = box_x r /\ dim_y d = box_y r
  /\ dim_width d = box_width r /\ dim_height d = box_height r
  /\ forall embedJpg embedPng file rest page,
       embedGroup embedJpg embedPng options pageWidth pageHeight i
                  (file :: rest) page
       = (page' <- embedImageInPage embedJpg embedPng page file
                     (mkDimensions (box_x r) (box_y r) (box_width r)
                                   (box_height r) (border options)) ;;
          embedGroup embedJpg embedPng options pageWidth pageHeight (S i)
                     rest page').
Proof.
  assert (H : slotDimensions options pageWidth pageHeight i
              = let r := slotRect_spec pageWidth pageHeight (margins options)
                                       (imagesPerPage options) i in
                mkDimensions (box_x r) (box_y r) (box_width r) (box_height r)
                             (border options)).
  { unfold slotDimensions, slotRect_spec.
    destruct (imagesPerPage options); cbv [ipp_value Z.eqb Pos.eqb];
      rewrite Math_floor_div_pos by lia;
      rewrite Js_rem_nonneg by lia; reflexivity. }
  cbv zeta in *. cbn [embedGroup]. rewrite H. cbn [dim_x dim_y dim_width dim_height].
  repeat split; reflexivity.
Qed.

Example slot_portrait_four_3 :
  let d := slotDimensions
             (mkOptions Four (mkMargins 20 20 20 20) (mkBorder false 1 "#000000")
                        portrait)
             (fst A4) (snd A4) 3 in
  dim_x d == 30764 # 100 /\ dim_y d == 20
  /\ dim_width d == 26764 # 100 /\ dim_height d == 390945 # 1000.
Proof. vm_compute. repeat split; reflexivity. Qed.

(** ** Fitting an image in its slot *)




Section Fit.

Variable image : PDFImage.
Variable dimensions : Dimensions.
Hypothesis image_width_pos : 0 < image_width image.
Hypothesis image_height_pos : 0 < image_height image.
Hypothesis width_pos : 0 < dim_width dimensions.
Hypothesis height_pos : 0 < dim_height dimensions.






End Fit.

Section EmbedImage.

Variable embedJpg embedPng : list byte -> string + option PDFImage.

Local Abbreviation decode := (decodeImage embedJpg embedPng).
Local Abbreviation embed := (embedImageInPage embedJpg embedPng).

(** When it returns, [embedImageInPage] has decoded the file, drawn the
    border (if any) and then the image in its fitted box. *)
Lemma embedImageInPage_returns page file d page' :
  embed page file d = Returns page' ->
  exists image bordered,
    decode file = Returns image
    /\ drawBorder page (fittedBox image d) d = Returns bordered
    /\ page' = draw bordered (DrawImage image (fittedBox image d)).
Proof.
  unfold embedImageInPage.
  destruct (decode file) as [image|e|]; cbn [bind try_catch];
    try discriminate.
  destruct (drawBorder page (fittedBox image d) d) as [bordered|e|] eqn:Hb;
    cbn [bind try_catch]; try discriminate.
  intros H. injection H as <-. now exists image, bordered.
Qed.

(** It never fails to settle, and what it throws names the file. *)
Lemma embedImageInPage_throws page file d :
  (exists page', embed page file d = Returns page')
  \/ (exists m, embed page file d = Throws (PDFError m (Some (name file)))).
Proof.
  unfold embedImageInPage, decodeImage.
  assert (Hrgb : forall r g b, rgb r g b <> Diverges).
  { intros [r|] [g|] [b|]; cbn; try discriminate.
    destruct (_ && _); discriminate. }
  assert (Hb : forall p b, drawBorder p b d <> Diverges).
  { intros p b. unfold drawBorder.
    destruct (enabled _); [|discriminate].
    destruct (color_components _) as [cs|]; [|discriminate].
    specialize (Hrgb (component cs 0) (component cs 1) (component cs 2)).
    destruct (rgb _ _ _); cbn; congruence. }
  destruct (_ || _).
  - destruct (embedJpg (content file)) as [e|[image|]]; cbn; eauto.
    specialize (Hb page (fittedBox image d)).
    destruct (drawBorder _ _ _); cbn; eauto. contradiction.
  - destruct (Js.includes _ _); cbn; eauto.
    destruct (embedPng (content file)) as [e|[image|]]; cbn; eauto.
    specialize (Hb page (fittedBox image d)).
    destruct (drawBorder _ _ _); cbn; eauto. contradiction.
Qed.

Lemma embedImageInPage_no_border page file d image :
  decode file = Returns image ->
  enabled (dim_border d) = false ->
  embed page file d = Returns (draw page (DrawImage image (fittedBox image d))).
Proof.
  intros Hd Hb. unfold embedImageInPage, drawBorder. now rewrite Hd, Hb.
Qed.

Lemma decodeImage_throws_embed page file d e :
  decode file = Throws e ->
  embed page file d
  = Throws (PDFError ("Failed to embed image: " ++ error_message e)
                     (Some (name file))).
Proof. intros Hd. unfold embedImageInPage. now rewrite Hd. Qed.

End EmbedImage.


Module Fit.

Import PrimFloat.




End Fit.

(** ** Clamping of margins and border width *)

Lemma clamp_range (lo hi v : Q) :
  lo <= hi -> lo <= Math_max lo (Math_min hi v) <= hi.
Proof.
  intros Hlh. unfold Math_max, Math_min.
  destruct (Qle_bool hi v) eqn:E1.
  - destruct (Qle_bool lo hi) eqn:E2.
    + split; [assumption | apply Qle_refl].
    + apply Qle_bool_iff in Hlh. congruence.
  - assert (Hv : v < hi).
    { apply Qnot_le_lt. intros H. apply Qle_bool_iff in H. congruence. }
    destruct (Qle_bool lo v) eqn:E2.
    + apply Qle_bool_iff in E2. split; [assumption | now apply Qlt_le_weak].
    + split; [apply Qle_refl | assumption].
Qed.

Lemma initialOptions_in_range : in_range initialOptions.
Proof. unfold in_range; cbn. repeat split; discriminate. Qed.

Lemma updateOptions_in_range (options : PDFOptions) (e : LayoutEvent) :
  in_range options -> in_range (updateOptions options e).
Proof.
  unfold in_range. intros (Ht & Hr & Hb & Hl & Hw).
  assert (H100 : 0 <= 100) by discriminate.
  assert (H10 : (1 # 10) <= 10) by discriminate.
  destruct e as [v | o | side input | checked | input | value]; cbn;
    try (repeat split; tauto).
  - pose proof (clamp_range 0 100 input H100).
    destruct side; cbn; repeat split; tauto.
  - pose proof (clamp_range (1 # 10) 10 input H10). repeat split; tauto.
Qed.

Section AppInvariant.

Variable SourcePage : Type.
Variable Bytes : Type.
Variable embedJpg embedPng : list byte -> string + option PDFImage.
Variable PDFDocument_load : list byte -> string + list SourcePage.
Variable save : PDFDocument SourcePage -> string + Bytes.
Variable PDFDocument_create : option string.

Local Abbreviation app_handle :=
  (handle SourcePage Bytes embedJpg embedPng PDFDocument_load save
          PDFDocument_create).

Local Abbreviation app_calls :=
  (merge_calls SourcePage Bytes embedJpg embedPng PDFDocument_load save
               PDFDocument_create).

Lemma handle_in_range (st : AppState) (ev : AppEvent) :
  in_range (layoutOptions st) -> in_range (layoutOptions (app_handle st ev)).
Proof.
  intros H. destruct ev as [newFiles | index | e |]; cbn.
  - now destruct (existsb has_error newFiles).
  - assumption.
  - now apply updateOptions_in_range.
  - destruct (files st); [assumption|].
    now destruct (PDFService_createPDF _ _ _ _ _ _ _ _ _).
Qed.

Lemma run_in_range (evs : list AppEvent) (st : AppState) :
  in_range (layoutOptions st) ->
  in_range (layoutOptions (fold_left app_handle evs st))
  /\ Forall (fun call => in_range (snd call)) (app_calls st evs).
Proof.
  revert st. induction evs as [|ev evs IH]; intros st H.
  - split; [assumption | constructor].
  - destruct (IH (app_handle st ev) (handle_in_range st ev H)) as [IH1 IH2].
    split; [exact IH1|]. cbn [merge_calls].
    destruct (merge_call st ev) as [call|] eqn:E; [|exact IH2].
    constructor; [|exact IH2].
    unfold merge_call in E. destruct ev; try discriminate.
    destruct (files st); [discriminate|]. now injection E as <-.
Qed.

End AppInvariant.

(** C6: after every sequence of drops, removals, edits of the layout
    controls and clicks on the merge button, starting from the initial
    state, the margins are within [0,100] and the border width within
    [0.1,10]; so are the options of every call of [PDFService.createPDF]
    made on the way. *)
Theorem options_always_clamped
  (SourcePage Bytes : Type)
  (embedJpg embedPng : list byte -> string + option PDFImage)
  (PDFDocument_load : list byte -> string + list SourcePage)
  (save : PDFDocument SourcePage -> string + Bytes)
  (PDFDocument_create : option string) (evs : list AppEvent) :
  in_range
    (layoutOptions
       (fold_left (handle SourcePage Bytes embedJpg embedPng PDFDocument_load
                          save PDFDocument_create)
                  evs initialState))
  /\ Forall (fun call => in_range (snd call))
            (merge_calls SourcePage Bytes embedJpg embedPng PDFDocument_load
                         save PDFDocument_create initialState evs).
Proof. apply run_in_range. exact initialOptions_in_range. Qed.

Example clamp_margin_high :
  top (margins (updateOptions initialOptions (ChangeMargin side_top 250))) = 100.
Proof. reflexivity. Qed.

Example clamp_border_low :
  border_width (border (updateOptions initialOptions (ChangeBorderWidth 0)))
  = 1 # 10.
Proof. reflexivity. Qed.

(** ** Chunks *)

Section Chunks.

Context {T : Type}.
Variable xs : list T.
Variable k : nat.
Hypothesis k_pos : (0 < k)%nat.

Local Abbreviation n := (List.length xs).

Lemma ceil_div_bounds :
  (k * ceil_div n k <= n + k - 1 < k * S (ceil_div n k))%nat.
Proof.
  unfold ceil_div. split.
  - apply Nat.Div0.mul_div_le.
  - apply Nat.mul_succ_div_gt. lia.
Qed.

Lemma ceil_div_le (j : nat) : (n <= j * k -> ceil_div n k <= j)%nat.
Proof. pose proof ceil_div_bounds. nia. Qed.

Lemma ceil_div_gt (j : nat) : (j * k < n -> j < ceil_div n k)%nat.
Proof. pose proof ceil_div_bounds. nia. Qed.

Lemma ceil_div_inner (j : nat) : (S j < ceil_div n k -> S j * k < n)%nat.
Proof. pose proof ceil_div_bounds. nia. Qed.

Lemma chunkArray_loop_chunks (fuel j : nat) (chunks : list (list T)) :
  (n - j * k <= fuel)%nat ->
  chunkArray_loop fuel xs k (j * k) chunks
  = Some (chunks ++ map (chunk_at xs k) (seq j (ceil_div n k - j)))%list.
Proof.
  revert j chunks. induction fuel as [|fuel IH]; intros j chunks Hfuel.
  - cbn [chunkArray_loop].
    destruct (Nat.ltb_spec (j * k) n) as [Hlt | Hge]; [lia|].
    apply ceil_div_le in Hge.
    replace (ceil_div n k - j)%nat with 0%nat by lia.
    cbn. now rewrite app_nil_r.
  - cbn [chunkArray_loop].
    destruct (Nat.ltb_spec (j * k) n) as [Hlt | Hge].
    + replace (j * k + k)%nat with (S j * k)%nat by lia.
      rewrite IH by (cbn; lia).
      apply ceil_div_gt in Hlt.
      replace (ceil_div n k - j)%nat with (S (ceil_div n k - S j)) by lia.
      cbn [seq map]. rewrite <- app_assoc. cbn [app].
      do 3 f_equal. unfold slice, chunk_at. f_equal. nia.
    + apply ceil_div_le in Hge.
      replace (ceil_div n k - j)%nat with 0%nat by lia.
      cbn. now rewrite app_nil_r.
Qed.

(** [chunkArray] terminates for a positive size and returns the
    consecutive chunks of the specification. *)
Lemma chunkArray_chunks : chunkArray xs k = Some (consecutive_chunks xs k).
Proof.
  unfold chunkArray.
  change (chunkArray_loop n xs k 0 []) with (chunkArray_loop n xs k (0 * k) []).
  rewrite chunkArray_loop_chunks by lia.
  now rewrite Nat.sub_0_r.
Qed.

Lemma firstn_plus (a b : nat) (l : list T) :
  firstn (a + b) l = (firstn a l ++ firstn b (skipn a l))%list.
Proof.
  revert l. induction a as [|a IH]; intros l; [reflexivity|].
  destruct l as [|x l]; cbn.
  - now rewrite firstn_nil.
  - now rewrite IH.
Qed.

Lemma concat_chunks_prefix (m : nat) :
  List.concat (map (chunk_at xs k) (seq 0 m)) = firstn (m * k) xs.
Proof.
  induction m as [|m IH]; [reflexivity|].
  rewrite seq_S, map_app, concat_app, IH. cbn [map List.concat plus].
  rewrite app_nil_r. unfold chunk_at.
  replace (S m * k)%nat with (m * k + k)%nat by lia.
  now rewrite firstn_plus.
Qed.

Lemma concat_consecutive_chunks : List.concat (consecutive_chunks xs k) = xs.
Proof.
  unfold consecutive_chunks. rewrite concat_chunks_prefix.
  apply firstn_all2. pose proof ceil_div_bounds. nia.
Qed.

Lemma length_chunk_at (j : nat) :
  List.length (chunk_at xs k j) = Nat.min k (n - j * k).
Proof. unfold chunk_at. now rewrite length_firstn, length_skipn. Qed.

Lemma length_inner_chunk (j : nat) :
  (S j < ceil_div n k)%nat -> List.length (chunk_at xs k j) = k.
Proof.
  intros H. apply ceil_div_inner in H. rewrite length_chunk_at. lia.
Qed.

Lemma length_last_chunk :
  xs <> [] ->
  (0 < List.length (chunk_at xs k (ceil_div n k - 1)) <= k)%nat.
Proof.
  intros Hne. rewrite length_chunk_at.
  assert (0 < n)%nat by (destruct xs; [congruence | cbn; lia]).
  pose proof ceil_div_bounds. 
  assert (0 < ceil_div n k)%nat by nia.
  split; [|lia].
  assert ((ceil_div n k - 1) * k < n)%nat by nia. lia.
Qed.

End Chunks.

Example chunkArray_zero_size : chunkArray [1%nat; 2%nat] 0 = None.
Proof. reflexivity. Qed.

Example chunkArray_four_by_two :
  chunkArray ["A"; "B"; "C"; "D"]%string 2 = Some [["A"; "B"]; ["C"; "D"]]%string.
Proof. reflexivity. Qed.

Example chunkArray_five_by_four :
  chunkArray ["A"; "B"; "C"; "D"; "E"]%string 4
  = Some [["A"; "B"; "C"; "D"]; ["E"]]%string.
Proof. reflexivity. Qed.

(** ** Image pages *)

Lemma page_images_draw (page : PDFPage) (op : DrawOp) :
  page_images (draw page op)
  = (page_images page
     ++ match op with DrawImage image _ => [image] | _ => [] end)%list.
Proof.
  unfold page_images, draw. cbn [page_ops]. rewrite flat_map_app. cbn.
  now rewrite app_nil_r.
Qed.

Lemma drawBorder_images (page bordered : PDFPage) (b : Box) (d : Dimensions) :
  drawBorder page b d = Returns bordered ->
  page_images bordered = page_images page.
Proof.
  unfold drawBorder. destruct (enabled _).
  - destruct (color_components _) as [cs|]; [|discriminate].
    destruct (rgb _ _ _); cbn [bind]; try discriminate.
    intros H. injection H as <-. rewrite page_images_draw. apply app_nil_r.
  - intros H. now injection H as <-.
Qed.

Section ImagePages.

Variable SourcePage : Type.
Variable embedJpg embedPng : list byte -> string + option PDFImage.

Local Abbreviation decode := (decodeImage embedJpg embedPng).
Local Abbreviation embed := (embedImageInPage embedJpg embedPng).
Local Abbreviation group_loop := (embedGroup embedJpg embedPng).
Local Abbreviation add_group := (addImageGroup SourcePage embedJpg embedPng).

Lemma embedImageInPage_images page file d page' :
  embed page file d = Returns page' ->
  exists image,
    decode file = Returns image
    /\ page_images page' = (page_images page ++ [image])%list.
Proof.
  intros H. apply embedImageInPage_returns in H.
  destruct H as (image & bordered & Hd & Hb & ->).
  exists image. split; [assumption|].
  rewrite page_images_draw. now rewrite (drawBorder_images _ _ _ _ Hb).
Qed.

Lemma embedGroup_images options w h group : forall i page page',
  group_loop options w h i group page = Returns page' ->
  exists images,
    Forall2 (fun file image => decode file = Returns image) group images
    /\ page_images page' = (page_images page ++ images)%list.
Proof.
  induction group as [|file rest IH]; intros i page page' H.
  - cbn in H. injection H as <-. exists []. split; [constructor|].
    now rewrite app_nil_r.
  - cbn [embedGroup] in H.
    destruct (embed page file (slotDimensions options w h i))
      as [page1|e|] eqn:E; cbn [bind] in H; try discriminate.
    apply embedImageInPage_images in E. destruct E as (image & Hd & Hi).
    apply IH in H. destruct H as (images & HF & Hp).
    exists (image :: images). split; [now constructor|].
    rewrite Hp, Hi. now rewrite <- app_assoc.
Qed.

(** The loop over a group settles; it throws as soon as one file of the
    group does not decode. *)
Lemma embedGroup_settles options w h group : forall i page,
  group_loop options w h i group page <> Diverges.
Proof.
  induction group as [|file rest IH]; intros i page; [discriminate|].
  cbn [embedGroup].
  destruct (embedImageInPage_throws embedJpg embedPng page file
              (slotDimensions options w h i)) as [[p E] | [m E]];
    rewrite E; cbn [bind]; [apply IH | discriminate].
Qed.

Lemma embedGroup_undecodable options w h group file e : forall i page,
  In file group -> decode file = Throws e ->
  exists e', group_loop options w h i group page = Throws e'.
Proof.
  induction group as [|file0 rest IH]; intros i page Hin Hd; [contradiction|].
  cbn [embedGroup].
  destruct (embed page file0 (slotDimensions options w h i))
    as [page1|e1|] eqn:E; cbn [bind].
  - destruct Hin as [-> | Hin].
    + rewrite (decodeImage_throws_embed _ _ _ _ _ _ Hd) in E. discriminate.
    + now apply IH.
  - now exists e1.
  - destruct (embedImageInPage_throws embedJpg embedPng page file0
                (slotDimensions options w h i)) as [[p E'] | [m E']];
      congruence.
Qed.

Lemma addImageGroup_outcome options pageSize pdfDoc group :
  (exists page,
     add_group options pageSize pdfDoc group
     = Returns (pdfDoc ++ [Drawn page])%list
     /\ page_shows decode page group)
  \/ add_group options pageSize pdfDoc group = Throws only_allowed_error.
Proof.
  unfold addImageGroup. cbn [page_width page_height].
  destruct (group_loop options (fst pageSize) (snd pageSize) 0 group
              (mkPage (fst pageSize) (snd pageSize) [])) as [page|e|] eqn:E;
    cbn [bind try_catch].
  - left. exists page. split; [reflexivity|].
    apply embedGroup_images in E. destruct E as (images & HF & Hp).
    unfold page_shows. now rewrite Hp.
  - now right.
  - now apply embedGroup_settles in E.
Qed.

Lemma addImageGroup_undecodable options pageSize pdfDoc group file e :
  In file group -> decode file = Throws e ->
  add_group options pageSize pdfDoc group = Throws only_allowed_error.
Proof.
  intros Hin Hd. unfold addImageGroup. cbn [page_width page_height].
  destruct (embedGroup_undecodable options (fst pageSize) (snd pageSize)
              group file e 0 (mkPage (fst pageSize) (snd pageSize) []) Hin Hd)
    as [e' E].
  now rewrite E.
Qed.

Lemma imageGroups_outcome options pageSize groups : forall pdfDoc,
  (exists pages,
     for_of (add_group options pageSize) groups pdfDoc
     = Returns (pdfDoc ++ map Drawn pages)%list
     /\ Forall2 (page_shows decode) pages groups)
  \/ for_of (add_group options pageSize) groups pdfDoc
     = Throws only_allowed_error.
Proof.
  induction groups as [|group rest IH]; intros pdfDoc.
  - left. exists []. cbn. split; [now rewrite app_nil_r | constructor].
  - cbn [for_of].
    destruct (addImageGroup_outcome options pageSize pdfDoc group)
      as [(page & E & Hs) | E]; rewrite E; cbn [bind]; [|now right].
    destruct (IH (pdfDoc ++ [Drawn page])%list) as [(pages & E' & HF) | E'];
      rewrite E'; [|now right].
    left. exists (page :: pages). split; [|now constructor].
    cbn [map]. now rewrite <- app_assoc.
Qed.

Lemma imageGroups_undecodable options pageSize groups file e : forall pdfDoc,
  In file (List.concat groups) -> decode file = Throws e ->
  for_of (add_group options pageSize) groups pdfDoc = Throws only_allowed_error.
Proof.
  induction groups as [|group rest IH]; intros pdfDoc Hin Hd; [contradiction|].
  cbn [List.concat] in Hin. apply in_app_or in Hin. cbn [for_of].
  destruct (addImageGroup_outcome options pageSize pdfDoc group)
    as [(page & E & Hs) | E]; rewrite E; cbn [bind]; [|reflexivity].
  destruct Hin as [Hin | Hin].
  - rewrite (addImageGroup_undecodable options pageSize pdfDoc group file e
               Hin Hd) in E. discriminate.
  - now apply IH.
Qed.

End ImagePages.

(** ** When the assembler returns *)

Lemma drawBorder_draws (page : PDFPage) (b : Box) (d : Dimensions) :
  border_draws (dim_border d) ->
  exists bordered, drawBorder page b d = Returns bordered.
Proof.
  intros [Hoff | (c1 & c2 & c3 & c4 & c5 & c6 & H1 & H2 & H3 & H4 & H5 & H6 & Hc)].
  - unfold drawBorder. rewrite Hoff. now exists page.
  - destruct (enabled (dim_border d)) eqn:Hen.
    + destruct (color_components_hex c1 c2 c3 c4 c5 c6 H1 H2 H3 H4 H5 H6)
        as (r & g & bl & Hcc & Ur & Ug & Ub).
      rewrite <- Hc in Hcc. eexists.
      now apply (drawBorder_components page b d r g bl).
    + unfold drawBorder. rewrite Hen. now exists page.
Qed.

Section Returns.

Variable SourcePage : Type.
Variable embedJpg embedPng : list byte -> string + option PDFImage.

Local Abbreviation decode := (decodeImage embedJpg embedPng).
Local Abbreviation embed := (embedImageInPage embedJpg embedPng).
Local Abbreviation group_loop := (embedGroup embedJpg embedPng).
Local Abbreviation add_group := (addImageGroup SourcePage embedJpg embedPng).

Lemma embedImageInPage_decodes page file d :
  decodes decode file -> border_draws (dim_border d) ->
  exists page', embed page file d = Returns page'.
Proof.
  intros (image & Hd & _) Hb. unfold embedImageInPage. rewrite Hd. cbn [bind].
  destruct (drawBorder_draws page (fittedBox image d) d Hb) as [bordered E].
  rewrite E. cbn [bind try_catch]. eauto.
Qed.

Lemma embedGroup_decodes options w h group :
  Forall (decodes decode) group -> border_draws (border options) ->
  forall i page, exists page', group_loop options w h i group page = Returns page'.
Proof.
  intros HF Hb. induction HF as [|file rest Hd _ IH]; intros i page.
  - now exists page.
  - cbn [embedGroup].
    destruct (embedImageInPage_decodes page file
                (slotDimensions options w h i) Hd Hb) as [page1 E].
    rewrite E. cbn [bind]. apply IH.
Qed.

Lemma imageGroups_decodes options pageSize groups :
  Forall (Forall (decodes decode)) groups -> border_draws (border options) ->
  forall pdfDoc,
  exists doc', for_of (add_group options pageSize) groups pdfDoc = Returns doc'.
Proof.
  intros HF Hb. induction HF as [|group rest Hg _ IH]; intros pdfDoc.
  - now exists pdfDoc.
  - cbn [for_of]. unfold addImageGroup at 1. cbn [page_width page_height].
    destruct (embedGroup_decodes options (fst pageSize) (snd pageSize) group
                Hg Hb 0 (mkPage (fst pageSize) (snd pageSize) []))
      as [page E].
    rewrite E. cbn [bind try_catch]. apply IH.
Qed.

Lemma addImagesToDocument_returns pdfDoc images options :
  Forall (decodes decode) images -> border_draws (border options) ->
  exists doc',
    addImagesToDocument SourcePage embedJpg embedPng pdfDoc images options
    = Returns doc'.
Proof.
  intros HF Hb. unfold addImagesToDocument.
  assert (Hk : (0 < Z.to_nat (ipp_value (imagesPerPage options)))%nat)
    by (destruct (imagesPerPage options); cbn; lia).
  rewrite (chunkArray_chunks images _ Hk).
  apply imageGroups_decodes; [|assumption].
  apply Forall_forall. intros group Hg. apply Forall_forall. intros file Hf.
  rewrite Forall_forall in HF. apply HF.
  rewrite <- (concat_consecutive_chunks images _ Hk).
  apply in_concat. now exists group.
Qed.

End Returns.

Lemma ipp_pos (k : ImagesPerPage) : (0 < Z.to_nat (ipp_value k))%nat.
Proof. destruct k; cbn; lia. Qed.

Lemma addImagesToDocument_outcome
  (SourcePage : Type)
  (embedJpg embedPng : list byte -> string + option PDFImage)
  (pdfDoc : PDFDocument SourcePage) (images : list File)
  (options : PDFOptions) :
  (exists pages,
     addImagesToDocument SourcePage embedJpg embedPng pdfDoc images options
     = Returns (pdfDoc ++ map Drawn pages)%list
     /\ Forall2 (page_shows (decodeImage embedJpg embedPng)) pages
          (consecutive_chunks images
             (Z.to_nat (ipp_value (imagesPerPage options)))))
  \/ addImagesToDocument SourcePage embedJpg embedPng pdfDoc images options
     = Throws only_allowed_error.
Proof.
  unfold addImagesToDocument.
  rewrite (chunkArray_chunks images _ (ipp_pos (imagesPerPage options))).
  apply imageGroups_outcome.
Qed.

(** C7: for a non-empty list of [n] images with [k] images per page,
    [addImagesToDocument] returns whenever every image decodes and the
    border can be drawn; and whenever it returns, it has appended exactly
    ceil(n/k) pages; the [j]-th page shows the [j]-th consecutive chunk of
    the list; the chunks are those [chunkArray] computes, they concatenate
    to the list, each has [k] files except the last, which has between 1
    and [k]. *)
Theorem addImagesToDocument_chunks
  (SourcePage : Type)
  (embedJpg embedPng : list byte -> string + option PDFImage)
  (pdfDoc : PDFDocument SourcePage) (images : list File)
  (options : PDFOptions) :
  let k := Z.to_nat (ipp_value (imagesPerPage options)) in
  let n := List.length images in
  images <> [] ->
  (Forall (decodes (decodeImage embedJpg embedPng)) images ->
   border_draws (border options) ->
   exists doc',
     addImagesToDocument SourcePage embedJpg embedPng pdfDoc images options
     = Returns doc')
  /\ forall doc',
       addImagesToDocument SourcePage embedJpg embedPng pdfDoc images options
       = Returns doc' ->
       exists pages,
         doc' = (pdfDoc ++ map Drawn pages)%list
         /\ List.length pages = ceil_div n k
         /\ Forall2 (page_shows (decodeImage embedJpg embedPng)) pages
                    (consecutive_chunks images k)
         /\ chunkArray images k = Some (consecutive_chunks images k)
         /\ List.concat (consecutive_chunks images k) = images
         /\ (forall j, (S j < ceil_div n k)%nat ->
                       List.length (chunk_at images k j) = k)
         /\ (0 < List.length (chunk_at images k (ceil_div n k - 1)) <= k)%nat.
Proof.
  intros k n Hne. split; [now apply addImagesToDocument_returns|].
  intros doc' H.
  pose proof (ipp_pos (imagesPerPage options)) as Hk. fold k in Hk.
  destruct (addImagesToDocument_outcome SourcePage embedJpg embedPng pdfDoc
              images options) as [(pages & E & HF) | E];
    rewrite E in H; [|discriminate].
  injection H as <-. exists pages. split; [reflexivity|].
  split.
  { apply Forall2_length in HF. rewrite HF. unfold consecutive_chunks.
    now rewrite length_map, length_seq. }
  split; [exact HF|].
  split; [now apply chunkArray_chunks|].
  split; [now apply concat_consecutive_chunks|].
  split; [intros j; now apply length_inner_chunk|].
  now apply length_last_chunk.
Qed.

Lemma addImagesToDocument_chunks_witness :
  exists doc' pages,
    Sample.addImagesToDocument []
      [Sample.fileA; Sample.fileB; Sample.fileC; Sample.fileD]
      (Sample.options Two) = Returns doc'
    /\ doc' = map Drawn pages
    /\ List.length pages = 2%nat
    /\ Forall2 (page_shows Sample.decodeImage) pages
         [[Sample.fileA; Sample.fileB]; [Sample.fileC; Sample.fileD]].
Proof.
  pose (images := [Sample.fileA; Sample.fileB; Sample.fileC; Sample.fileD]).
  assert (Hne : images <> []) by discriminate.
  assert (Hdec : Forall (decodes Sample.decodeImage) images)
    by (repeat constructor; eexists; vm_compute; repeat split; reflexivity).
  assert (Hb : border_draws (border (Sample.options Two)))
    by (left; reflexivity).
  destruct (addImagesToDocument_chunks byte Sample.embed Sample.embed
              [] images (Sample.options Two) Hne) as [Hret Hchunks].
  destruct (Hret Hdec Hb) as [doc' E].
  destruct (Hchunks doc' E) as (pages & H1 & H2 & H3 & _).
  exists doc', pages.
  split; [exact E|]. split; [exact H1|]. split; [exact H2 | exact H3].
Defined.

(** The example of the specification: four images, two per page. *)
Example four_images_two_per_page :
  exists p1 p2,
    Sample.addImagesToDocument []
      [Sample.fileA; Sample.fileB; Sample.fileC; Sample.fileD]
      (Sample.options Two) = Returns [Drawn p1; Drawn p2]
    /\ page_images p1 = [Sample.image_of x41; Sample.image_of x42]
    /\ page_images p2 = [Sample.image_of x43; Sample.image_of x44].
Proof. eexists. eexists. vm_compute. repeat split. Qed.

(** ** Document pages *)

Lemma partition_fold (files : list File) : forall images pdfs,
  fold_left partition_step files (images, pdfs)
  = ((images ++ filter is_image files)%list, (pdfs ++ filter is_pdf files)%list).
Proof.
  induction files as [|file rest IH]; intros images pdfs.
  - cbn. now rewrite !app_nil_r.
  - cbn [fold_left filter]. unfold partition_step at 2, is_pdf, is_image.
    destruct (Js.startsWith (type_ file) "image/"); cbn [negb andb].
    + rewrite IH. now rewrite <- app_assoc.
    + destruct (String.eqb (type_ file) "application/pdf").
      * rewrite IH. now rewrite <- app_assoc.
      * apply IH.
Qed.

Lemma partitionFiles_filter (files : list File) :
  partitionFiles files = (filter is_image files, filter is_pdf files).
Proof. unfold partitionFiles. now rewrite partition_fold. Qed.

Section CopyPages.

Variable SourcePage : Type.

Lemma copyPages_from (done rest : list SourcePage) :
  copyPages SourcePage (done ++ rest)
            (seq (List.length done) (List.length rest))
  = map Copied rest.
Proof.
  revert done. induction rest as [|p rest IH]; intros done; [reflexivity|].
  cbn [List.length seq copyPages flat_map map].
  rewrite nth_error_app2 by lia. rewrite Nat.sub_diag. cbn [nth_error app].
  f_equal.
  specialize (IH (done ++ [p])%list).
  rewrite <- app_assoc, length_app in IH. cbn [List.length app] in IH.
  rewrite Nat.add_1_r in IH. exact IH.
Qed.

(** Copying the pages at [getPageIndices] copies every page, in order. *)
Lemma copyPages_all (existingPdf : list SourcePage) :
  copyPages SourcePage existingPdf (getPageIndices SourcePage existingPdf)
  = map Copied existingPdf.
Proof. exact (copyPages_from [] existingPdf). Qed.

End CopyPages.

Section Assembly.

Variable SourcePage : Type.
Variable Bytes : Type.
Variable embedJpg embedPng : list byte -> string + option PDFImage.
Variable PDFDocument_load : list byte -> string + list SourcePage.
Variable save : PDFDocument SourcePage -> string + Bytes.

Local Abbreviation add_pdf := (addPDFToPDF SourcePage PDFDocument_load).

(** [addPDFToPDF] appends every page of the file, in order, or throws a
    [PDFError] that names the file. *)
Lemma addPDFToPDF_outcome (pdfDoc : PDFDocument SourcePage) (file : File) :
  (exists source,
     loads_as PDFDocument_load file source
     /\ add_pdf pdfDoc file = Returns (pdfDoc ++ map Copied source)%list)
  \/ (exists m, add_pdf pdfDoc file = Throws (PDFError m (Some (name file)))).
Proof.
  unfold addPDFToPDF, loads_as.
  destruct (PDFDocument_load (content file)) as [e | source] eqn:E;
    cbn [await bind try_catch].
  - right. eauto.
  - rewrite copyPages_all. destruct source as [|p source]; cbn [map].
    + right. cbn [try_catch]. eauto.
    + left. exists (p :: source). split; [|reflexivity].
      split; [reflexivity | discriminate].
Qed.

Local Abbreviation add_pdf_guarded := (processPDF SourcePage PDFDocument_load).

(** The handler of lines 82-88 has nothing to wrap. *)
Lemma add_pdf_guarded_eq pdfDoc file :
  add_pdf_guarded pdfDoc file = add_pdf pdfDoc file.
Proof.
  unfold processPDF.
  destruct (addPDFToPDF_outcome pdfDoc file) as [(source & _ & E) | (m & E)];
    now rewrite E.
Qed.

Lemma pdfs_outcome (pdfs : list File) : forall pdfDoc,
  (exists sources,
     Forall2 (loads_as PDFDocument_load) pdfs sources
     /\ for_of add_pdf_guarded pdfs pdfDoc
        = Returns (pdfDoc ++ flat_map (map Copied) sources)%list)
  \/ (exists m file,
        In file pdfs
        /\ for_of add_pdf_guarded pdfs pdfDoc
           = Throws (PDFError m (Some (name file)))).
Proof.
  induction pdfs as [|file rest IH]; intros pdfDoc.
  - left. exists []. split; [constructor|]. cbn. now rewrite app_nil_r.
  - cbn [for_of]. rewrite add_pdf_guarded_eq.
    destruct (addPDFToPDF_outcome pdfDoc file) as [(source & Hl & E) | (m & E)];
      rewrite E; cbn [bind].
    + destruct (IH (pdfDoc ++ map Copied source)%list)
        as [(sources & HF & E') | (m & f & Hin & E')]; rewrite E'.
      * left. exists (source :: sources). split; [now constructor|].
        cbn [flat_map]. now rewrite <- app_assoc.
      * right. exists m, f. split; [now right | reflexivity].
    + right. exists m, file. split; [now left | reflexivity].
Qed.

Lemma processPDF_loads pdfDoc file source :
  loads_as PDFDocument_load file source ->
  add_pdf_guarded pdfDoc file = Returns (pdfDoc ++ map Copied source)%list.
Proof.
  intros [Hl Hne]. rewrite add_pdf_guarded_eq. unfold addPDFToPDF.
  rewrite Hl. cbn [await bind]. rewrite copyPages_all.
  destruct source; [congruence | reflexivity].
Qed.

Lemma pdfs_load (pdfs : list File) :
  Forall (fun file => exists source, loads_as PDFDocument_load file source)
         pdfs ->
  forall pdfDoc, exists doc', for_of add_pdf_guarded pdfs pdfDoc = Returns doc'.
Proof.
  intros HF. induction HF as [|file rest [source Hl] _ IH]; intros pdfDoc.
  - now exists pdfDoc.
  - cbn [for_of]. rewrite (processPDF_loads pdfDoc file source Hl).
    cbn [bind]. apply IH.
Qed.

End Assembly.

Lemma consecutive_chunks_nil {T : Type} (k : nat) :
  (0 < k)%nat -> consecutive_chunks (@nil T) k = [].
Proof.
  intros Hk. unfold consecutive_chunks, ceil_div. cbn [List.length].
  rewrite Nat.div_small by lia. reflexivity.
Qed.

Section CreatePDF.

Variable SourcePage : Type.
Variable Bytes : Type.
Variable embedJpg embedPng : list byte -> string + option PDFImage.
Variable PDFDocument_load : list byte -> string + list SourcePage.
Variable save : PDFDocument SourcePage -> string + Bytes.

Local Abbreviation decode := (decodeImage embedJpg embedPng).
Local Abbreviation add_images :=
  (addImagesToDocument SourcePage embedJpg embedPng).

(** Line 75-77: the image stage of [createPDF]. *)
Lemma image_stage_outcome (pdfDoc : PDFDocument SourcePage)
  (images : list File) (options : PDFOptions) :
  let stage := match images with
               | [] => Returns pdfDoc
               | _ => add_images pdfDoc images options
               end in
  (exists pages,
     stage = Returns (pdfDoc ++ map Drawn pages)%list
     /\ Forall2 (page_shows decode) pages
          (consecutive_chunks images
             (Z.to_nat (ipp_value (imagesPerPage options)))))
  \/ (images <> [] /\ stage = Throws only_allowed_error).
Proof.
  destruct images as [|file rest] eqn:E.
  - left. exists []. cbn [map]. rewrite app_nil_r. split; [reflexivity|].
    rewrite consecutive_chunks_nil by apply ipp_pos. constructor.
  - cbv zeta.
    destruct (addImagesToDocument_outcome SourcePage embedJpg embedPng pdfDoc
                (file :: rest) options) as [H | H]; [now left | right].
    split; [discriminate | exact H].
Qed.

Lemma createPDF_stages (files : list File) (options : PDFOptions) :
  files <> [] ->
  createPDF SourcePage Bytes embedJpg embedPng PDFDocument_load save None
            files options
  = (pdfDoc <- match filter is_image files with
               | [] => Returns []
               | _ => add_images [] (filter is_image files) options
               end ;;
     pdfDoc <- for_of (processPDF SourcePage PDFDocument_load)
                      (filter is_pdf files) pdfDoc ;;
     try_catch (await (save pdfDoc))
       (fun error =>
          Throws (PDFError ("Failed to save PDF document: "
                            ++ message_or_unknown error) None))).
Proof.
  intros Hne. destruct files as [|file rest]; [congruence|].
  unfold createPDF. rewrite partitionFiles_filter. reflexivity.
Qed.

Lemma createPDF_returns (files : list File) (options : PDFOptions) :
  files <> [] ->
  Forall (decodes decode) (filter is_image files) ->
  border_draws (border options) ->
  Forall (fun file => exists source, loads_as PDFDocument_load file source)
         (filter is_pdf files) ->
  (forall doc, exists bytes, save doc = inr bytes) ->
  exists bytes,
    createPDF SourcePage Bytes embedJpg embedPng PDFDocument_load save None
              files options = Returns bytes.
Proof.
  intros Hne Hi Hb Hp Hs. rewrite createPDF_stages by assumption.
  assert (E1 : exists doc1,
             match filter is_image files with
             | [] => Returns []
             | _ => add_images [] (filter is_image files) options
             end = Returns doc1).
  { destruct (filter is_image files) eqn:E; [now exists []|].
    now apply addImagesToDocument_returns. }
  destruct E1 as [doc1 E1]. unfold PDFDocument in *. rewrite E1. cbn [bind].
  destruct (pdfs_load SourcePage PDFDocument_load _ Hp doc1) as [doc2 E2].
  unfold PDFDocument in *. rewrite E2. cbn [bind].
  destruct (Hs doc2) as [bytes E3]. rewrite E3. now exists bytes.
Qed.

End CreatePDF.

(** C2: [createPDF] returns whenever the list is not empty, every image
    decodes, the border can be drawn, every PDF file loads with at least
    one page and saving succeeds; and whenever it returns, the document it
    has saved consists of the image pages, one per consecutive chunk of the
    image files in input order, followed by the pages of every PDF file in
    input order, each file contributing all the pages it loads as, in
    their order. *)
Theorem createPDF_page_order
  (SourcePage Bytes : Type)
  (embedJpg embedPng : list byte -> string + option PDFImage)
  (PDFDocument_load : list byte -> string + list SourcePage)
  (save : PDFDocument SourcePage -> string + Bytes)
  (files : list File) (options : PDFOptions) :
  (files <> [] ->
   Forall (decodes (decodeImage embedJpg embedPng)) (filter is_image files) ->
   border_draws (border options) ->
   Forall (fun file => exists source, loads_as PDFDocument_load file source)
          (filter is_pdf files) ->
   (forall doc, exists bytes, save doc = inr bytes) ->
   exists bytes,
     createPDF SourcePage Bytes embedJpg embedPng PDFDocument_load save None
               files options = Returns bytes)
  /\ forall PDFDocument_create bytes,
       createPDF SourcePage Bytes embedJpg embedPng PDFDocument_load save
                 PDFDocument_create files options = Returns bytes ->
       exists pages sources,
         save (map Drawn pages ++ flat_map (map Copied) sources)%list
         = inr bytes
         /\ Forall2 (page_shows (decodeImage embedJpg embedPng)) pages
              (consecutive_chunks (filter is_image files)
                 (Z.to_nat (ipp_value (imagesPerPage options))))
         /\ Forall2 (loads_as PDFDocument_load) (filter is_pdf files) sources.
Proof.
  split; [now apply createPDF_returns|].
  intros PDFDocument_create bytes H.
  assert (Hne : files <> []) by (intros ->; discriminate H).
  destruct PDFDocument_create as [m|].
  { destruct files; [congruence | discriminate H]. }
  rewrite createPDF_stages in H by assumption.
  destruct (image_stage_outcome SourcePage embedJpg embedPng []
              (filter is_image files) options)
    as [(pages & E & HF) | (_ & E)]; cbv zeta in E; unfold PDFDocument in *;
    rewrite E in H;
    cbn [bind app] in H; [|discriminate H].
  destruct (pdfs_outcome SourcePage PDFDocument_load (filter is_pdf files)
              (map Drawn pages))
    as [(sources & HL & E') | (m & f & _ & E')]; unfold PDFDocument in *;
    rewrite E' in H;
    cbn [bind] in H; [|discriminate H].
  exists pages, sources. split; [|split; assumption].
  destruct (save _) as [m | b]; cbn in H; [discriminate H | congruence].
Qed.

Lemma createPDF_page_order_witness :
  exists bytes pages sources,
    Sample.createPDF [Sample.fileP; Sample.fileA; Sample.fileQ]
                     (Sample.options One) = Returns bytes
    /\ bytes = (map Drawn pages ++ flat_map (map Copied) sources)%list
    /\ Forall2 (page_shows Sample.decodeImage) pages [[Sample.fileA]]
    /\ Forall2 (loads_as Sample.load) [Sample.fileP; Sample.fileQ] sources.
Proof.
  pose (files := [Sample.fileP; Sample.fileA; Sample.fileQ]).
  assert (Hne : files <> []) by discriminate.
  assert (Hdec : Forall (decodes Sample.decodeImage) (filter is_image files))
    by (repeat constructor; eexists; vm_compute; repeat split; reflexivity).
  assert (Hb : border_draws (border (Sample.options One)))
    by (left; reflexivity).
  assert (Hl : Forall (fun file => exists source,
                         loads_as Sample.load file source)
                      (filter is_pdf files))
    by (repeat constructor; eexists; (split; [reflexivity | discriminate])).
  assert (Hs : forall doc, exists bytes, Sample.save doc = inr bytes)
    by (intros doc; now exists doc).
  destruct (createPDF_page_order byte (PDFDocument byte) Sample.embed
              Sample.embed Sample.load Sample.save files
              (Sample.options One)) as [Hret Horder].
  destruct (Hret Hne Hdec Hb Hl Hs) as [bytes E].
  destruct (Horder None bytes E) as (pages & sources & H1 & H2 & H3).
  exists bytes, pages, sources.
  split; [exact E|]. split; [|split; [exact H2 | exact H3]].
  unfold Sample.save in H1. congruence.
Defined.

(** The example of the specification: one image and two documents of two
    pages and one page, given in any order. *)
Example image_then_documents :
  exists pageA,
    Sample.createPDF [Sample.fileP; Sample.fileA; Sample.fileQ]
                     (Sample.options One)
    = Returns [Drawn pageA; Copied x01; Copied x02; Copied x03]
    /\ page_images pageA = [Sample.image_of x41].
Proof. eexists. vm_compute. split; reflexivity. Qed.

(** ** An image that does not decode *)

(** C1 (what the code does): when some image file of the input does not
    decode, [createPDF] throws the error that [addImagesToDocument]
    substitutes for every failure of a group, "Only jpg, pdf, png are
    allowed", without a file name; the error of [embedImageInPage], which
    carries the name of the file, is dropped. *)
Theorem createPDF_undecodable_image
  (SourcePage Bytes : Type)
  (embedJpg embedPng : list byte -> string + option PDFImage)
  (PDFDocument_load : list byte -> string + list SourcePage)
  (save : PDFDocument SourcePage -> string + Bytes)
  (files : list File) (options : PDFOptions) (file : File) (e : JsError) :
  In file files ->
  is_image file = true ->
  decodeImage embedJpg embedPng file = Throws e ->
  (forall page dimensions,
     embedImageInPage embedJpg embedPng page file dimensions
     = Throws (PDFError ("Failed to embed image: " ++ error_message e)
                        (Some (name file))))
  /\ createPDF SourcePage Bytes embedJpg embedPng PDFDocument_load save None
               files options
     = Throws (PDFError "Only jpg, pdf, png are allowed" None).
Proof.
  intros Hin Him Hd. split.
  { intros page dimensions. now apply decodeImage_throws_embed. }
  assert (Hne : files <> []) by (intros ->; contradiction).
  rewrite createPDF_stages by assumption.
  assert (Hin' : In file (filter is_image files))
    by (apply filter_In; now split).
  assert (E : addImagesToDocument SourcePage embedJpg embedPng []
                (filter is_image files) options = Throws only_allowed_error).
  { unfold addImagesToDocument.
    rewrite (chunkArray_chunks _ _ (ipp_pos (imagesPerPage options))).
    apply (imageGroups_undecodable _ _ _ _ _ _ file e); [|assumption].
    now rewrite (concat_consecutive_chunks _ _ (ipp_pos (imagesPerPage options))). }
  destruct (filter is_image files); [contradiction|].
  unfold PDFDocument in *. now rewrite E.
Qed.

Lemma createPDF_undecodable_image_witness :
  Sample.createPDF [Sample.fileA; Sample.broken; Sample.fileP]
                   (Sample.options One)
  = Throws (PDFError "Only jpg, pdf, png are allowed" None)
  /\ Js.includes "Only jpg, pdf, png are allowed" (name Sample.broken) = false.
Proof.
  split; [|reflexivity].
  apply (proj2 (createPDF_undecodable_image byte (PDFDocument byte)
                  Sample.embed Sample.embed Sample.load Sample.save
                  [Sample.fileA; Sample.broken; Sample.fileP]
                  (Sample.options One) Sample.broken
                  (OtherError "unexpected end of image data")
                  (or_intror (or_introl eq_refl)) eq_refl eq_refl)).
Defined.

(** With the sibling path, a document that does not load, the error keeps
    the name of the file. *)
Example createPDF_unloadable_pdf :
  Sample.createPDF [mkFile "empty.pdf" "application/pdf" 0 []]
                   (Sample.options One)
  = Throws (PDFError "Failed to merge PDF: No PDF header found"
                     (Some "empty.pdf")).
Proof. reflexivity. Qed.

(** * Further properties of the code *)

(** ** [chunkArray] on its edges *)

Lemma chunkArray_loop_zero_size {T : Type} (array : list T) (fuel : nat) :
  array <> [] ->
  forall chunks, chunkArray_loop fuel array 0 0 chunks = None.
Proof.
  intros Hne. assert (Hlen : (0 <? List.length array)%nat = true).
  { destruct array; [congruence | reflexivity]. }
  induction fuel as [|fuel IH]; intros chunks; cbn [chunkArray_loop];
    rewrite Hlen; [reflexivity|]. cbn [plus]. apply IH.
Qed.

Lemma consecutive_chunks_nonempty {T : Type} (xs : list T) (k : nat) :
  (0 < k)%nat ->
  Forall (fun chunk => (0 < List.length chunk <= k)%nat)
         (consecutive_chunks xs k).
Proof.
  intros Hk. unfold consecutive_chunks. apply Forall_forall.
  intros chunk Hin. apply in_map_iff in Hin. destruct Hin as (j & <- & Hj).
  apply in_seq in Hj. rewrite length_chunk_at.
  pose proof (ceil_div_bounds xs k Hk). split; [|lia].
  assert (j * k < List.length xs)%nat by nia. lia.
Qed.

(** [chunkArray] of the empty array is empty whatever the size; with size
    0 the loop over a non-empty array never ends; with a positive size it
    ends, and the chunks are non-empty, at most [size] long, and
    concatenate to the array. *)
Theorem chunkArray_edges {T : Type} (array : list T) (size : nat) :
  chunkArray (@nil T) size = Some []
  /\ (array <> [] -> chunkArray array 0 = None)
  /\ ((0 < size)%nat ->
      exists chunks,
        chunkArray array size = Some chunks
        /\ List.concat chunks = array
        /\ Forall (fun chunk => (0 < List.length chunk <= size)%nat) chunks).
Proof.
  split; [reflexivity|]. split.
  - intros Hne. unfold chunkArray. now apply chunkArray_loop_zero_size.
  - intros Hs. exists (consecutive_chunks array size).
    split; [now apply chunkArray_chunks|].
    split; [now apply concat_consecutive_chunks|].
    now apply consecutive_chunks_nonempty.
Qed.

Lemma chunkArray_edges_witness :
  chunkArray [1; 2; 3]%nat 0 = None
  /\ exists chunks,
       chunkArray [1; 2; 3]%nat 2 = Some chunks
       /\ List.concat chunks = [1; 2; 3]%nat
       /\ Forall (fun chunk => (0 < List.length chunk <= 2)%nat) chunks.
Proof.
  split.
  - apply (proj1 (proj2 (chunkArray_edges [1; 2; 3]%nat 0))). discriminate.
  - apply (proj2 (proj2 (chunkArray_edges [1; 2; 3]%nat 2))). lia.
Defined.

(** ** Colour components of any string *)

Lemma all_ascii_complete (c : ascii) : In c all_ascii.
Proof.
  unfold all_ascii. apply in_map_iff. exists (nat_of_ascii c).
  split; [apply ascii_nat_embedding|].
  apply in_seq. pose proof (nat_ascii_bounded c). lia.
Qed.

Lemma pair_parses_all :
  forallb (fun a => forallb (pair_parses a) all_ascii) all_ascii = true.
Proof. vm_compute. reflexivity. Qed.

Lemma parseInt16_word_pair (a b : ascii) :
  Js.is_word a = true -> Js.is_word b = true ->
  match Js.parseInt16 (String a (String b EmptyString)) with
  | None => True
  | Some n => (0 <= n <= 255)%Z
  end.
Proof.
  intros Ha Hb. pose proof pair_parses_all as H.
  rewrite forallb_forall in H. specialize (H a (all_ascii_complete a)).
  rewrite forallb_forall in H. specialize (H b (all_ascii_complete b)).
  unfold pair_parses in H. rewrite Ha, Hb in H. cbn [andb negb orb] in H.
  destruct (Js.parseInt16 _); [lia | exact I].
Qed.

Lemma match_all_ww_pairs (n : nat) : forall s,
  (String.length s <= n)%nat ->
  Forall (fun m => exists a b, m = String a (String b EmptyString)
                               /\ Js.is_word a = true /\ Js.is_word b = true)
         (Js.match_all_ww s).
Proof.
  induction n as [|n IH]; intros s Hlen.
  - destruct s; [constructor | cbn in Hlen; lia].
  - destruct s as [|a [|b rest]]; try constructor.
    change (Js.match_all_ww (String a (String b rest)))
      with (if Js.is_word a && Js.is_word b
            then String a (String b EmptyString) :: Js.match_all_ww rest
            else Js.match_all_ww (String b rest)).
    cbn [String.length] in Hlen.
    destruct (Js.is_word a && Js.is_word b) eqn:E.
    + apply andb_true_iff in E. constructor; [now exists a, b|].
      apply IH. lia.
    + apply IH. cbn [String.length]. lia.
Qed.

(** Whatever the colour string, when the match is not null every
    component is [NaN] or lies between 0 and 1, and there is at least one:
    [rgb] can only fail on a component that is missing or [NaN], never on
    one out of range. *)
Theorem color_components_NaN_or_unit (color : string) (cs : list (option Q)) :
  color_components color = Some cs ->
  cs <> [] /\ Forall NaN_or_unit cs.
Proof.
  unfold color_components, Js.match_ww. intros H.
  pose proof (match_all_ww_pairs _ color (Nat.le_refl _)) as HF.
  destruct (Js.match_all_ww color) as [|m ms]; [discriminate|].
  change (Some (map (fun x => option_map (fun n => inject_Z n / 255)
                                         (Js.parseInt16 x)) (m :: ms))
          = Some cs) in H.
  assert (Hcs : cs = map (fun x => option_map (fun n => inject_Z n / 255)
                                              (Js.parseInt16 x)) (m :: ms))
    by congruence.
  clear H. subst cs. split; [discriminate|].
  apply Forall_forall. intros c Hc. apply in_map_iff in Hc.
  destruct Hc as (x & <- & Hx). rewrite Forall_forall in HF.
  destruct (HF x Hx) as (a & b & -> & Ha & Hb).
  pose proof (parseInt16_word_pair a b Ha Hb) as Hp.
  destruct (Js.parseInt16 _) as [n|]; cbn; [|exact I].
  now apply component_in_unit.
Qed.

Lemma color_components_NaN_or_unit_witness :
  exists cs, color_components "red, 7f" = Some cs
             /\ cs <> [] /\ Forall NaN_or_unit cs.
Proof.
  exists [None; Some (127 # 255)]. split; [reflexivity|].
  apply (color_components_NaN_or_unit "red, 7f"). reflexivity.
Defined.

(** ** Accepted file names *)

Lemma validateFile_None_iff (f : File) :
  validateFile (Some f) = None <->
  (size f <= MAX_FILE_SIZE)%Z /\ In (type_ f) supportedTypes
  /\ In (fileExtension f) supportedExtensions.
Proof. exact (validateFile_with_None_iff Js.toLowerCase f). Qed.

Lemma lower_char_dot (c : ascii) :
  Ascii.eqb (Js.lower_char c) "." = Ascii.eqb c ".".
Proof. destruct c as [[] [] [] [] [] [] [] []]; reflexivity. Qed.

Lemma lastIndexOf_from_lower (s : string) : forall i acc,
  Js.lastIndexOf_from "." (Js.toLowerCase s) i acc
  = Js.lastIndexOf_from "." s i acc.
Proof.
  induction s as [|c s IH]; intros i acc; [reflexivity|].
  cbn [Js.toLowerCase Js.lastIndexOf_from]. now rewrite lower_char_dot, IH.
Qed.

(** Whatever lower-casing does, a file is accepted exactly when it is
    within the size limit, its declared type is supported, its lower-cased
    name ends with one of the supported extensions, and the last dot of
    the name is at the same index as the last dot of the lower-cased name
    (so a name whose lower-casing moves the dot is rejected); a name in
    which [lastIndexOf] finds no dot is never accepted.  For names of code
    units below 256 lower-casing never moves the last dot. *)
Theorem validateFile_accepts_by_suffix
  (toLowerCase : string -> string) (f : File) :
  (validateFile_with toLowerCase (Some f) = None <->
   (size f <= MAX_FILE_SIZE)%Z /\ In (type_ f) supportedTypes
   /\ (exists ext, In ext supportedExtensions
                   /\ ends_with (toLowerCase (name f)) ext)
   /\ Js.lastIndexOf (name f) "."
      = Js.lastIndexOf (toLowerCase (name f)) ".")
  /\ (Js.lastIndexOf (name f) "." = (-1)%Z ->
      validateFile_with toLowerCase (Some f) <> None)
  /\ Js.lastIndexOf (name f) "."
     = Js.lastIndexOf (Js.toLowerCase (name f)) ".".
Proof.
  split; [|split].
  - rewrite validateFile_with_None_iff. split.
    + intros (Hs & Ht & He). split; [assumption|]. split; [assumption|].
      destruct (extension_position toLowerCase f He) as (stem & E & H1 & H2).
      split; [|congruence].
      exists (fileExtension_with toLowerCase f). split; [assumption|].
      now exists stem.
    + intros (Hs & Ht & (ext & He & stem & E) & Hdot).
      split; [assumption|]. split; [assumption|].
      assert (Hl : Js.lastIndexOf (name f) "."
                   = Z.of_nat (String.length stem)).
      { rewrite Hdot, E. now apply lastIndexOf_extension. }
      unfold fileExtension_with. rewrite Hl, E.
      unfold Js.slice, Js.length. rewrite length_append.
      destruct (Z.ltb_spec (Z.of_nat (String.length stem)) 0); [lia|].
      rewrite Z.min_l by lia. rewrite Nat2Z.id. now rewrite drop_append.
  - intros Hno Hok. apply validateFile_with_None_iff in Hok.
    destruct Hok as (_ & _ & He).
    destruct (extension_position toLowerCase f He) as (stem & _ & H1 & _).
    lia.
  - unfold Js.lastIndexOf. now rewrite lastIndexOf_from_lower.
Qed.

Lemma validateFile_accepts_by_suffix_witness :
  validateFile (Some (mkFile "Holiday.Photo.JPEG" "image/jpeg" 2048 [])) = None
  /\ validateFile (Some (mkFile "README" "application/pdf" 2048 [])) <> None.
Proof.
  split.
  - apply (proj1 (validateFile_accepts_by_suffix Js.toLowerCase
                    (mkFile "Holiday.Photo.JPEG" "image/jpeg" 2048 []))).
    split; [cbn; lia|]. split; [cbn; tauto|]. split; [|reflexivity].
    exists ".jpeg". split; [cbn; tauto|]. now exists "holiday.photo".
  - apply (proj1 (proj2 (validateFile_accepts_by_suffix Js.toLowerCase
                           (mkFile "README" "application/pdf" 2048 [])))).
    reflexivity.
Defined.

(** A name whose lower-casing is longer before the dot is rejected,
    although the lower-cased name ends with ".png". *)
Example validateFile_moved_dot :
  let f := mkFile Sample.dotted_name "image/png" 1 [] in
  ends_with (Sample.lengthening_lower (name f)) ".png"
  /\ validateFile_with Sample.lengthening_lower (Some f)
     = Some (not_supported_message f).
Proof. split; [now exists "i'" | reflexivity]. Qed.

(** ** What an edit of a margin or of the border width stores *)

Lemma Qle_bool_false (a b : Q) : Qle_bool a b = false -> b < a.
Proof.
  intros E. apply Qnot_le_lt. intros H. apply Qle_bool_iff in H. congruence.
Qed.

Lemma clamp_cases (lo hi v : Q) :
  lo <= hi ->
  (v <= lo -> Math_max lo (Math_min hi v) == lo)
  /\ (lo <= v <= hi -> Math_max lo (Math_min hi v) == v)
  /\ (hi <= v -> Math_max lo (Math_min hi v) == hi).
Proof.
  intros Hlh. unfold Math_max, Math_min.
  destruct (Qle_bool hi v) eqn:E1;
    [apply Qle_bool_iff in E1 | apply Qle_bool_false in E1];
    (destruct (Qle_bool lo _) eqn:E2;
     [apply Qle_bool_iff in E2 | apply Qle_bool_false in E2]);
    repeat split; intros; lra.
Qed.

(** An edit of a margin stores the input when it lies within [0,100],
    the nearer bound otherwise, and leaves the other three margins and
    all other options alone; an edit of the border width does the same
    with [0.1,10]. *)
Theorem edit_stores_clamped (options : PDFOptions) :
  (forall side v,
     let o' := updateOptions options (ChangeMargin side v) in
     (v <= 0 -> get_margin (margins o') side == 0)
     /\ (0 <= v <= 100 -> get_margin (margins o') side == v)
     /\ (100 <= v -> get_margin (margins o') side == 100)
     /\ (forall other, other <> side ->
           get_margin (margins o') other = get_margin (margins options) other)
     /\ border o' = border options
     /\ imagesPerPage o' = imagesPerPage options
     /\ orientation o' = orientation options)
  /\ (forall v,
        let o' := updateOptions options (ChangeBorderWidth v) in
        (v <= 1 # 10 -> border_width (border o') == 1 # 10)
        /\ (1 # 10 <= v <= 10 -> border_width (border o') == v)
        /\ (10 <= v -> border_width (border o') == 10)
        /\ enabled (border o') = enabled (border options)
        /\ color (border o') = color (border options)
        /\ margins o' = margins options
        /\ imagesPerPage o' = imagesPerPage options
        /\ orientation o' = orientation options).
Proof.
  split.
  - intros side v o'.
    assert (H100 : 0 <= 100) by discriminate.
    destruct (clamp_cases 0 100 v H100) as (C1 & C2 & C3).
    assert (Hside : get_margin (margins o') side
                    = Math_max 0 (Math_min 100 v)) by now destruct side.
    rewrite Hside. repeat split; try assumption.
    intros other Hne. destruct side, other; try reflexivity; congruence.
  - intros v o'.
    assert (H10 : 1 # 10 <= 10) by discriminate.
    destruct (clamp_cases (1 # 10) 10 v H10) as (C1 & C2 & C3).
    repeat split; assumption.
Qed.

Lemma edit_stores_clamped_witness :
  right (margins (updateOptions initialOptions (ChangeMargin side_right 250)))
  == 100
  /\ border_width (border (updateOptions initialOptions
                             (ChangeBorderWidth (5 # 2)))) == 5 # 2.
Proof.
  split.
  - apply (proj1 (proj2 (proj2 (proj1 (edit_stores_clamped initialOptions)
                                  side_right 250)))).
    discriminate.
  - apply (proj1 (proj2 (proj2 (edit_stores_clamped initialOptions)
                           (5 # 2)))).
    split; discriminate.
Defined.

(** ** The errors of [createPDF] *)

Section Errors.

Variable SourcePage : Type.
Variable Bytes : Type.
Variable embedJpg embedPng : list byte -> string + option PDFImage.
Variable PDFDocument_load : list byte -> string + list SourcePage.
Variable save : PDFDocument SourcePage -> string + Bytes.

Local Abbreviation decode := (decodeImage embedJpg embedPng).
Local Abbreviation add_pdf := (addPDFToPDF SourcePage PDFDocument_load).
Local Abbreviation process := (processPDF SourcePage PDFDocument_load).
Local Abbreviation create_pdf :=
  (createPDF SourcePage Bytes embedJpg embedPng PDFDocument_load save).

Lemma createPDF_create (create : option string) files options :
  files <> [] ->
  create_pdf create files options
  = match create with
    | Some _ => Throws (PDFError "Failed to create PDF document" None)
    | None => create_pdf None files options
    end.
Proof.
  intros Hne. destruct files; [congruence|]. now destruct create.
Qed.

(** What [addPDFToPDF] does, by what [PDFDocument.load] gives. *)
Lemma processPDF_cases pdfDoc file :
  process pdfDoc file
  = match PDFDocument_load (content file) with
    | inl m =>
        Throws (PDFError ("Failed to merge PDF: "
                          ++ match m with
                             | EmptyString => "Unknown error"
                             | _ => m
                             end)
                         (Some (name file)))
    | inr [] => Throws (PDFError "PDF document has no pages" (Some (name file)))
    | inr source => Returns (pdfDoc ++ map Copied source)%list
    end.
Proof.
  rewrite add_pdf_guarded_eq. unfold addPDFToPDF.
  destruct (PDFDocument_load (content file)) as [m | source];
    cbn [await bind try_catch].
  - now destruct m.
  - rewrite copyPages_all. now destruct source.
Qed.

(** The loop over the documents stops at the first one that does not load
    or has no page. *)
Lemma pdfs_first_failure pre file post pdfDoc :
  Forall (fun g => exists source, loads_as PDFDocument_load g source) pre ->
  (forall source, ~ loads_as PDFDocument_load file source) ->
  exists doc1, for_of process (pre ++ file :: post) pdfDoc
               = process doc1 file
               /\ forall doc2, process doc1 file <> Returns doc2.
Proof.
  intros Hpre Hbad. revert pdfDoc.
  induction Hpre as [|g pre [source Hl] _ IH]; intros pdfDoc.
  - exists pdfDoc. cbn [app for_of].
    assert (Hno : forall doc2, process pdfDoc file <> Returns doc2).
    { intros doc2. rewrite processPDF_cases.
      destruct (PDFDocument_load (content file)) as [m | [|p source]] eqn:E;
        try discriminate.
      exfalso. apply (Hbad (p :: source)). split; [exact E | discriminate]. }
    split; [|exact Hno].
    destruct (process pdfDoc file) eqn:E; try reflexivity.
    exfalso. now apply (Hno a).
  - cbn [app for_of]. rewrite (processPDF_loads _ _ pdfDoc g source Hl).
    cbn [bind]. apply IH.
Qed.

Lemma pdfs_cases (pdfs : list File) : forall pdfDoc,
  (exists doc', for_of process pdfs pdfDoc = Returns doc')
  \/ (exists file doc1,
        In file pdfs
        /\ for_of process pdfs pdfDoc = process doc1 file
        /\ forall doc2, process doc1 file <> Returns doc2).
Proof.
  induction pdfs as [|file rest IH]; intros pdfDoc.
  - left. now exists pdfDoc.
  - cbn [for_of]. destruct (process pdfDoc file) as [doc1|e|] eqn:E.
    + cbn [bind]. destruct (IH doc1) as [H | (g & d & Hin & H1 & H2)].
      * now left.
      * right. exists g, d. split; [now right | now split].
    + right. exists file, pdfDoc. cbn [bind]. split; [now left|].
      split; [now rewrite E | intros doc2; congruence].
    + right. exists file, pdfDoc. cbn [bind]. split; [now left|].
      split; [now rewrite E | intros doc2; congruence].
Qed.

End Errors.

Section ErrorKinds.

Variable SourcePage : Type.
Variable Bytes : Type.
Variable embedJpg embedPng : list byte -> string + option PDFImage.
Variable PDFDocument_load : list byte -> string + list SourcePage.
Variable save : PDFDocument SourcePage -> string + Bytes.

Local Abbreviation process := (processPDF SourcePage PDFDocument_load).
Local Abbreviation create_pdf :=
  (createPDF SourcePage Bytes embedJpg embedPng PDFDocument_load save).

Lemma processPDF_error pdfs file doc1 :
  In file pdfs ->
  (forall doc2, process doc1 file <> Returns doc2) ->
  exists e,
    process doc1 file = Throws e
    /\ ((exists m, PDFDocument_load (content file) = inl m
                   /\ e = PDFError ("Failed to merge PDF: " ++ or_unknown m)
                                   (Some (name file)))
        \/ (PDFDocument_load (content file) = inr []
            /\ e = PDFError "PDF document has no pages" (Some (name file)))).
Proof.
  intros _ Hno. rewrite processPDF_cases.
  assert (Hno' : forall doc2,
             (match PDFDocument_load (content file) with
              | inl m =>
                  Throws (PDFError ("Failed to merge PDF: "
                                    ++ match m with
                                       | EmptyString => "Unknown error"
                                       | _ => m
                                       end)
                                   (Some (name file)))
              | inr [] =>
                  Throws (PDFError "PDF document has no pages"
                                   (Some (name file)))
              | inr source => Returns (doc1 ++ map Copied source)%list
              end) <> Returns doc2)
    by (intros doc2; rewrite <- processPDF_cases; apply Hno).
  destruct (PDFDocument_load (content file)) as [m | [|p source]].
  - eexists. split; [reflexivity|]. left. now exists m.
  - eexists. split; [reflexivity|]. now right.
  - exfalso. now apply (Hno' (doc1 ++ map Copied (p :: source))%list).
Qed.

Lemma createPDF_settles (create : option string) files options :
  (exists bytes, create_pdf create files options = Returns bytes)
  \/ (exists e, create_pdf create files options = Throws e
                /\ error_kind PDFDocument_load save create files e).
Proof.
  destruct files as [|file0 rest] eqn:Ef.
  { right. eexists. split; [reflexivity|]. now left. }
  rewrite <- Ef. assert (Hne : files <> []) by (rewrite Ef; discriminate).
  clear Ef. rewrite createPDF_create by assumption.
  destruct create as [m|].
  { right. eexists. split; [reflexivity|]. right. left.
    repeat split; [assumption | discriminate]. }
  rewrite createPDF_stages by assumption.
  destruct (image_stage_outcome SourcePage embedJpg embedPng []
              (filter is_image files) options)
    as [(pages & E & _) | (Hi & E)]; cbv zeta in E; unfold PDFDocument in *;
    rewrite E; cbn [bind app].
  2:{ right. eexists. split; [reflexivity|]. right. right. left. now split. }
  destruct (pdfs_cases SourcePage PDFDocument_load (filter is_pdf files)
              (map Drawn pages))
    as [(doc' & E') | (file & doc1 & Hin & E' & Hno)]; unfold PDFDocument in *;
    rewrite E'.
  - cbn [bind]. destruct (save doc') as [m | bytes] eqn:Es; cbn.
    + right. eexists. split; [reflexivity|]. do 5 right.
      exists doc', m. split; [assumption | now destruct m].
    + left. now exists bytes.
  - destruct (processPDF_error _ file doc1 Hin Hno)
      as (e & Ee & [(m & Hl & ->) | (Hl & ->)]); unfold PDFDocument in *;
      rewrite Ee; cbn [bind]; right; eexists; (split; [reflexivity|]).
    + do 3 right. left. now exists file, m.
    + do 4 right. left. now exists file.
Qed.

End ErrorKinds.

(** Whatever the input and whatever the library does, [createPDF] settles,
    and what it throws is a [PDFError] of one of six kinds.  Its file
    name, when there is one, is that of a PDF file of the input; the
    wrapper "Failed to process ..." of lines 84-87 and the messages of
    [embedImageInPage] never reach the caller. *)
Theorem createPDF_error_kinds
  (SourcePage Bytes : Type)
  (embedJpg embedPng : list byte -> string + option PDFImage)
  (PDFDocument_load : list byte -> string + list SourcePage)
  (save : PDFDocument SourcePage -> string + Bytes)
  (PDFDocument_create : option string)
  (files : list File) (options : PDFOptions) :
  createPDF SourcePage Bytes embedJpg embedPng PDFDocument_load save
            PDFDocument_create files options <> Diverges
  /\ forall e,
       createPDF SourcePage Bytes embedJpg embedPng PDFDocument_load save
                 PDFDocument_create files options = Throws e ->
       error_kind PDFDocument_load save PDFDocument_create files e
       /\ (exists m, e = PDFError m None
                     \/ exists file, In file files /\ is_pdf file = true
                                     /\ e = PDFError m (Some (name file))).
Proof.
  destruct (createPDF_settles SourcePage Bytes embedJpg embedPng
              PDFDocument_load save PDFDocument_create files options)
    as [(bytes & E) | (e0 & E & K)]; rewrite E.
  - split; [discriminate | intros e H; discriminate H].
  - split; [discriminate|]. intros e H. injection H as <-.
    split; [exact K|].
    destruct K as [(_ & ->) | [(_ & _ & ->) | [(_ & ->) |
                  [(file & m & Hin & _ & ->) | [(file & Hin & _ & ->) |
                  (doc & m & _ & ->)]]]]];
      try (eexists; left; reflexivity);
      apply filter_In in Hin; destruct Hin as [Hin Hp];
      eexists; right; exists file; repeat split; assumption.
Qed.

Lemma createPDF_error_kinds_witness :
  let files := [Sample.fileA; mkFile "empty.pdf" "application/pdf" 0 []] in
  exists e,
    Sample.createPDF files (Sample.options One) = Throws e
    /\ error_kind Sample.load Sample.save None files e.
Proof.
  intros files.
  exists (PDFError "Failed to merge PDF: No PDF header found" (Some "empty.pdf")).
  split; [reflexivity|].
  apply (proj2 (createPDF_error_kinds byte (PDFDocument byte) Sample.embed
                  Sample.embed Sample.load Sample.save None files
                  (Sample.options One))).
  reflexivity.
Defined.

(** ** Which files count, and which failure wins *)

Lemma filter_filter_same {A : Type} (f : A -> bool) (l : list A) :
  filter f (filter f l) = filter f l.
Proof.
  induction l as [|x l IH]; [reflexivity|]. cbn [filter].
  destruct (f x) eqn:E; [|exact IH]. cbn [filter]. now rewrite E, IH.
Qed.

Lemma filter_filter_none {A : Type} (f g : A -> bool) (l : list A) :
  (forall x, g x = true -> f x = false) ->
  filter f (filter g l) = [].
Proof.
  intros H. induction l as [|x l IH]; [reflexivity|]. cbn [filter].
  destruct (g x) eqn:E; [|exact IH]. cbn [filter]. now rewrite (H x E).
Qed.

Lemma is_pdf_not_image (file : File) : is_pdf file = true -> is_image file = false.
Proof. unfold is_pdf. now destruct (is_image file). Qed.

Lemma is_image_not_pdf (file : File) : is_image file = true -> is_pdf file = false.
Proof. unfold is_pdf. now intros ->. Qed.

Lemma kept_images (files : list File) :
  filter is_image (filter is_image files ++ filter is_pdf files)
  = filter is_image files.
Proof.
  rewrite filter_app, filter_filter_same.
  rewrite (filter_filter_none _ _ _ is_pdf_not_image). apply app_nil_r.
Qed.

Lemma kept_pdfs (files : list File) :
  filter is_pdf (filter is_image files ++ filter is_pdf files)
  = filter is_pdf files.
Proof.
  rewrite filter_app, filter_filter_same.
  now rewrite (filter_filter_none _ _ _ is_image_not_pdf).
Qed.

(** [createPDF] only looks at the image files and at the PDF files: files
    of any other type are skipped and the order between an image and a
    PDF does not matter.  When every file is skipped, the list is not
    empty and so the empty document is saved. *)
Theorem createPDF_ignores_other_files
  (SourcePage Bytes : Type)
  (embedJpg embedPng : list byte -> string + option PDFImage)
  (PDFDocument_load : list byte -> string + list SourcePage)
  (save : PDFDocument SourcePage -> string + Bytes)
  (PDFDocument_create : option string)
  (files : list File) (options : PDFOptions) :
  let kept := (filter is_image files ++ filter is_pdf files)%list in
  (kept <> [] ->
   createPDF SourcePage Bytes embedJpg embedPng PDFDocument_load save
             PDFDocument_create files options
   = createPDF SourcePage Bytes embedJpg embedPng PDFDocument_load save
               PDFDocument_create kept options)
  /\ (files <> [] -> kept = [] ->
      forall bytes, save [] = inr bytes ->
      createPDF SourcePage Bytes embedJpg embedPng PDFDocument_load save
                None files options = Returns bytes).
Proof.
  intros kept. split.
  - intros Hk.
    assert (Hne : files <> []) by (intros ->; now apply Hk).
    rewrite (createPDF_create _ _ _ _ _ _ _ files) by assumption.
    rewrite (createPDF_create _ _ _ _ _ _ _ kept) by assumption.
    destruct PDFDocument_create; [reflexivity|].
    rewrite !createPDF_stages by assumption.
    unfold kept. now rewrite kept_images, kept_pdfs.
  - intros Hne Hk bytes Hs. rewrite createPDF_stages by assumption.
    apply app_eq_nil in Hk. destruct Hk as [-> ->].
    cbn [bind for_of]. unfold PDFDocument in *. now rewrite Hs.
Qed.

Lemma createPDF_ignores_other_files_witness :
  let notes := mkFile "notes.txt" "text/plain" 10 [x68; x69] in
  Sample.createPDF [Sample.fileP; notes; Sample.fileA] (Sample.options One)
  = Sample.createPDF [Sample.fileA; Sample.fileP] (Sample.options One)
  /\ Sample.createPDF [notes] (Sample.options One) = Returns [].
Proof.
  intros notes. split.
  - apply (proj1 (createPDF_ignores_other_files byte (PDFDocument byte)
                    Sample.embed Sample.embed Sample.load Sample.save None
                    [Sample.fileP; notes; Sample.fileA] (Sample.options One))).
    discriminate.
  - apply (proj2 (createPDF_ignores_other_files byte (PDFDocument byte)
                    Sample.embed Sample.embed Sample.load Sample.save None
                    [notes] (Sample.options One)));
      [discriminate | reflexivity | reflexivity].
Defined.

Section FirstFailure.

Variable SourcePage : Type.
Variable Bytes : Type.
Variable embedJpg embedPng : list byte -> string + option PDFImage.
Variable PDFDocument_load : list byte -> string + list SourcePage.
Variable save : PDFDocument SourcePage -> string + Bytes.

Local Abbreviation decode := (decodeImage embedJpg embedPng).
Local Abbreviation process := (processPDF SourcePage PDFDocument_load).
Local Abbreviation create_pdf :=
  (createPDF SourcePage Bytes embedJpg embedPng PDFDocument_load save).

(** With images that decode, [createPDF] is the loop over the documents,
    entered with the image pages, followed by [save]. *)
Lemma createPDF_after_images files options :
  files <> [] ->
  Forall (decodes decode) (filter is_image files) ->
  border_draws (border options) ->
  exists doc1,
    create_pdf None files options
    = (pdfDoc <- for_of process (filter is_pdf files) doc1 ;;
       try_catch (await (save pdfDoc))
         (fun error =>
            Throws (PDFError ("Failed to save PDF document: "
                              ++ message_or_unknown error) None))).
Proof.
  intros Hne Hi Hb. rewrite createPDF_stages by assumption.
  assert (E1 : exists doc1,
             match filter is_image files with
             | [] => Returns []
             | _ => addImagesToDocument SourcePage embedJpg embedPng []
                      (filter is_image files) options
             end = Returns doc1).
  { destruct (filter is_image files) eqn:E; [now exists []|].
    now apply addImagesToDocument_returns. }
  destruct E1 as [doc1 E1]. exists doc1.
  unfold PDFDocument in *. now rewrite E1.
Qed.

End FirstFailure.

(** When the images decode, the first PDF file that does not load, or
    that loads without a page, decides the result: [createPDF] throws the
    error of that file, with its name, whatever follows it in the list
    and without saving anything. *)
Theorem createPDF_first_bad_pdf
  (SourcePage Bytes : Type)
  (embedJpg embedPng : list byte -> string + option PDFImage)
  (PDFDocument_load : list byte -> string + list SourcePage)
  (save : PDFDocument SourcePage -> string + Bytes)
  (files : list File) (options : PDFOptions)
  (pre : list File) (file : File) (post : list File) :
  filter is_pdf files = (pre ++ file :: post)%list ->
  Forall (decodes (decodeImage embedJpg embedPng)) (filter is_image files) ->
  border_draws (border options) ->
  Forall (fun g => exists source, loads_as PDFDocument_load g source) pre ->
  (forall m,
     PDFDocument_load (content file) = inl m ->
     createPDF SourcePage Bytes embedJpg embedPng PDFDocument_load save None
               files options
     = Throws (PDFError ("Failed to merge PDF: " ++ or_unknown m)
                        (Some (name file))))
  /\ (PDFDocument_load (content file) = inr [] ->
      createPDF SourcePage Bytes embedJpg embedPng PDFDocument_load save None
                files options
      = Throws (PDFError "PDF document has no pages" (Some (name file)))).
Proof.
  intros Hp Hi Hb Hpre.
  assert (Hne : files <> []) by (intros ->; now destruct pre).
  destruct (createPDF_after_images SourcePage Bytes embedJpg embedPng
              PDFDocument_load save files options Hne Hi Hb) as [doc1 E].
  rewrite E, Hp. clear E.
  assert (Hfail : forall doc2, (forall source,
                     ~ loads_as PDFDocument_load file source) ->
            for_of (processPDF SourcePage PDFDocument_load)
                   (pre ++ file :: post) doc1
            = processPDF SourcePage PDFDocument_load doc2 file ->
            forall e, processPDF SourcePage PDFDocument_load doc2 file
                      = Throws e ->
            (pdfDoc <- for_of (processPDF SourcePage PDFDocument_load)
                              (pre ++ file :: post) doc1 ;;
             try_catch (await (save pdfDoc))
               (fun error =>
                  Throws (PDFError ("Failed to save PDF document: "
                                    ++ message_or_unknown error) None)))
            = Throws e).
  { intros doc2 _ E1 e E2. unfold PDFDocument in *. now rewrite E1, E2. }
  split.
  - intros m Hl.
    assert (Hbad : forall source, ~ loads_as PDFDocument_load file source)
      by (intros source [H _]; congruence).
    destruct (pdfs_first_failure SourcePage PDFDocument_load pre file post
                doc1 Hpre Hbad) as (doc2 & E1 & _).
    apply (Hfail doc2 Hbad E1). rewrite processPDF_cases, Hl. reflexivity.
  - intros Hl.
    assert (Hbad : forall source, ~ loads_as PDFDocument_load file source)
      by (intros source [H H']; congruence).
    destruct (pdfs_first_failure SourcePage PDFDocument_load pre file post
                doc1 Hpre Hbad) as (doc2 & E1 & _).
    apply (Hfail doc2 Hbad E1). rewrite processPDF_cases, Hl. reflexivity.
Qed.

Lemma createPDF_first_bad_pdf_witness :
  let nopages := mkFile "blank.pdf" "application/pdf" 0 [] in
  Sample.createPDF [Sample.fileP; Sample.fileA; nopages; Sample.fileQ]
                   (Sample.options One)
  = Throws (PDFError "Failed to merge PDF: No PDF header found"
                     (Some "blank.pdf")).
Proof.
  intros nopages.
  pose (files := [Sample.fileP; Sample.fileA; nopages; Sample.fileQ]).
  assert (Hp : filter is_pdf files
               = ([Sample.fileP] ++ nopages :: [Sample.fileQ])%list)
    by reflexivity.
  assert (Hi : Forall (decodes Sample.decodeImage) (filter is_image files)).
  { repeat constructor. exists (Sample.image_of x41). now repeat split. }
  assert (Hb : border_draws (border (Sample.options One))) by now left.
  assert (Hpre : Forall (fun g => exists source,
                           loads_as Sample.load g source) [Sample.fileP]).
  { repeat constructor. exists [x01; x02].
    split; [reflexivity | discriminate]. }
  apply (proj1 (createPDF_first_bad_pdf byte (PDFDocument byte) Sample.embed
                  Sample.embed Sample.load Sample.save files
                  (Sample.options One) [Sample.fileP] nopages [Sample.fileQ]
                  Hp Hi Hb Hpre) "No PDF header found").
  reflexivity.
Defined.



(** ** The files the application holds *)

Lemma valid_image_or_pdf (file : File) :
  valid_file file -> is_image file = true \/ is_pdf file = true.
Proof.
  intros H. apply validateFile_None_iff in H. destruct H as (_ & Ht & _).
  unfold is_pdf, is_image. cbn in Ht.
  destruct Ht as [<- | [<- | [<- | [<- | []]]]]; cbn; tauto.
Qed.

Lemma has_error_false (file : File) :
  has_error file = false <-> valid_file file.
Proof.
  unfold has_error, valid_file.
  destruct (validateFile (Some file)); split; congruence.
Qed.

Lemma existsb_has_error (newFiles : list File) :
  existsb has_error newFiles = false <-> Forall valid_file newFiles.
Proof.
  induction newFiles as [|file rest IH]; cbn [existsb].
  - split; [constructor | reflexivity].
  - rewrite orb_false_iff, has_error_false, IH. split.
    + intros [H1 H2]. now constructor.
    + intros H. inversion H. now split.
Qed.

Lemma Forall_remove_at {T : Type} (P : T -> Prop) (xs : list T) :
  Forall P xs -> forall index, Forall P (remove_at index xs).
Proof.
  intros H. induction H as [|x xs Hx Hxs IH]; intros index.
  - now destruct index.
  - destruct index as [|n]; cbn; [assumption | constructor; auto].
Qed.

Section AppFiles.

Variable SourcePage : Type.
Variable Bytes : Type.
Variable embedJpg embedPng : list byte -> string + option PDFImage.
Variable PDFDocument_load : list byte -> string + list SourcePage.
Variable save : PDFDocument SourcePage -> string + Bytes.
Variable PDFDocument_create : option string.

Local Abbreviation app_handle :=
  (handle SourcePage Bytes embedJpg embedPng PDFDocument_load save
          PDFDocument_create).
Local Abbreviation app_calls :=
  (merge_calls SourcePage Bytes embedJpg embedPng PDFDocument_load save
               PDFDocument_create).
Local Abbreviation create_pdf :=
  (createPDF SourcePage Bytes embedJpg embedPng PDFDocument_load save
             PDFDocument_create).

Lemma createPDF_not_no_files fs options :
  fs <> [] ->
  create_pdf fs options <> Throws (PDFError "No files provided" None).
Proof.
  intros Hne.
  destruct (createPDF_settles SourcePage Bytes embedJpg embedPng
              PDFDocument_load save PDFDocument_create fs options)
    as [(bytes & E) | (e & E & K)]; rewrite E; [discriminate|].
  destruct K as [(H & _) | [(_ & _ & ->) | [(_ & ->) |
                [(file & m & _ & _ & ->) | [(file & _ & _ & ->) |
                (doc & m & _ & ->)]]]]];
    [contradiction | discriminate..].
Qed.

Lemma handle_valid (st : AppState) (ev : AppEvent) :
  Forall valid_file (files st) -> Forall valid_file (files (app_handle st ev)).
Proof.
  intros H. destruct ev as [newFiles | index | e |]; cbn.
  - destruct (existsb has_error newFiles) eqn:E; [assumption|].
    cbn. apply Forall_app. split; [assumption|].
    now apply existsb_has_error.
  - now apply Forall_remove_at.
  - assumption.
  - destruct (files st) eqn:E; [now rewrite E|].
    destruct (PDFService_createPDF _ _ _ _ _ _ _ _ _); cbn;
      [constructor | now rewrite E..].
Qed.

Lemma run_valid (evs : list AppEvent) : forall st,
  Forall valid_file (files st) ->
  Forall valid_file (files (fold_left app_handle evs st))
  /\ Forall (good_call create_pdf) (app_calls st evs).
Proof.
  induction evs as [|ev evs IH]; intros st H.
  - split; [assumption | constructor].
  - destruct (IH (app_handle st ev) (handle_valid st ev H)) as [IH1 IH2].
    split; [exact IH1|]. cbn [merge_calls].
    destruct (merge_call st ev) as [call|] eqn:E; [|exact IH2].
    constructor; [|exact IH2].
    unfold merge_call in E. destruct ev; try discriminate.
    destruct (files st) as [|file rest] eqn:Ef; [discriminate|].
    injection E as <-. cbn [fst snd].
    assert (Hne : file :: rest <> []) by discriminate.
    repeat split; try assumption.
    + eapply Forall_impl; [|exact H]. apply valid_image_or_pdf.
    + now apply createPDF_not_no_files.
Qed.

End AppFiles.

(** After every sequence of drops, removals, edits and clicks on the
    merge button, every file the application holds has passed the
    validator; every call of [PDFService.createPDF] is made on a
    non-empty list of validated files, each of which is an image or a
    PDF, so that no file is skipped and the no-files error is never
    thrown.  A drop is taken as a whole: it is appended when every
    dropped file passes, and ignored otherwise. *)
Theorem app_files_validated
  (SourcePage Bytes : Type)
  (embedJpg embedPng : list byte -> string + option PDFImage)
  (PDFDocument_load : list byte -> string + list SourcePage)
  (save : PDFDocument SourcePage -> string + Bytes)
  (PDFDocument_create : option string) (evs : list AppEvent) :
  let handle := handle SourcePage Bytes embedJpg embedPng PDFDocument_load
                       save PDFDocument_create in
  Forall valid_file (files (fold_left handle evs initialState))
  /\ Forall (good_call (createPDF SourcePage Bytes embedJpg embedPng
                                  PDFDocument_load save PDFDocument_create))
            (merge_calls SourcePage Bytes embedJpg embedPng PDFDocument_load
                         save PDFDocument_create initialState evs)
  /\ forall st newFiles,
       (Forall valid_file newFiles ->
        handle st (FilesDrop newFiles)
        = mkApp (files st ++ newFiles) (layoutOptions st))
       /\ (~ Forall valid_file newFiles ->
           handle st (FilesDrop newFiles) = st).
Proof.
  intros h.
  destruct (run_valid SourcePage Bytes embedJpg embedPng PDFDocument_load
              save PDFDocument_create evs initialState (Forall_nil _))
    as [H1 H2].
  split; [exact H1|]. split; [exact H2|].
  intros st newFiles. unfold h, handle.
  destruct (existsb has_error newFiles) eqn:E.
  - split; [|reflexivity]. intros H. apply existsb_has_error in H. congruence.
  - split; [reflexivity|]. intros H. apply existsb_has_error in E.
    contradiction.
Qed.

Lemma app_files_validated_witness :
  let h := handle byte (PDFDocument byte) Sample.embed Sample.embed
                  Sample.load Sample.save None in
  h (mkApp [Sample.fileA] initialOptions) (FilesDrop [Sample.fileP; Sample.fileB])
  = mkApp [Sample.fileA; Sample.fileP; Sample.fileB] initialOptions
  /\ h (mkApp [Sample.fileA] initialOptions)
       (FilesDrop [Sample.fileP; mkFile "notes.txt" "text/plain" 10 []])
     = mkApp [Sample.fileA] initialOptions.
Proof.
  intros h.
  pose proof (proj2 (proj2 (app_files_validated byte (PDFDocument byte)
                              Sample.embed Sample.embed Sample.load
                              Sample.save None []))) as H.
  split.
  - apply (proj1 (H (mkApp [Sample.fileA] initialOptions)
                    [Sample.fileP; Sample.fileB])).
    repeat constructor.
  - apply (proj2 (H (mkApp [Sample.fileA] initialOptions)
                    [Sample.fileP; mkFile "notes.txt" "text/plain" 10 []])).
    intros HF. inversion HF as [|? ? _ HF']. inversion HF' as [|? ? Hbad _].
    discriminate Hbad.
Defined.

(** ** What is drawn on an image page *)


Section Drawn.

Variable SourcePage : Type.
Variable embedJpg embedPng : list byte -> string + option PDFImage.

Local Abbreviation decode := (decodeImage embedJpg embedPng).
Local Abbreviation embed := (embedImageInPage embedJpg embedPng).
Local Abbreviation group_loop := (embedGroup embedJpg embedPng).
Local Abbreviation add_group := (addImageGroup SourcePage embedJpg embedPng).






End Drawn.




(** ** Decoding a validated image *)

(** A validated image file is decoded by the decoder of its declared
    type, PNG for image/png and JPEG for image/jpeg and image/jpg,
    whatever its extension; the "Unsupported image format" error cannot
    occur for it. *)
Theorem decodeImage_validated
  (embedJpg embedPng : list byte -> string + option PDFImage) (file : File) :
  valid_file file -> is_image file = true ->
  decodeImage embedJpg embedPng file
  = match (if String.eqb (type_ file) "image/png" then embedPng else embedJpg)
            (content file) with
    | inl m => Throws (OtherError m)
    | inr None => Throws (PDFError "Failed to embed image" (Some (name file)))
    | inr (Some image) => Returns image
    end.
Proof.
  intros Hv Hi. apply validateFile_None_iff in Hv.
  destruct Hv as (_ & Ht & _). unfold decodeImage, is_image in *.
  cbn in Ht.
  destruct Ht as [Ht | [Ht | [Ht | [Ht | []]]]]; rewrite <- Ht in *;
    try discriminate Hi; cbn [String.eqb Ascii.eqb Bool.eqb];
    match goal with
    | |- context [Js.includes ?a ?b || Js.includes ?c ?d] =>
        let v := eval vm_compute in (Js.includes a b || Js.includes c d) in
        change (Js.includes a b || Js.includes c d) with v
    end; cbv iota;
    try match goal with
    | |- context [Js.includes ?a ?b] =>
        let v := eval vm_compute in (Js.includes a b) in
        change (Js.includes a b) with v
    end; cbv iota;
    match goal with
    | |- context [await (?f (content file))] =>
        destruct (f (content file)) as [m | [image |]]; reflexivity
    end.
Qed.

Lemma decodeImage_validated_witness :
  Sample.decodeImage (mkFile "scan.png" "image/jpeg" 5 [x41])
  = Returns (Sample.image_of x41).
Proof.
  unfold Sample.decodeImage.
  rewrite (decodeImage_validated Sample.embed Sample.embed
             (mkFile "scan.png" "image/jpeg" 5 [x41]) eq_refl eq_refl).
  reflexivity.
Defined.

(** ** Removing a file *)

Lemma filter_index_keeps {T : Type} (index : nat) (xs : list T) :
  forall start, (index < start)%nat ->
  map snd
      (filter (fun p => negb (Nat.eqb (fst p) index))
              (combine (seq start (List.length xs)) xs))
  = xs.
Proof.
  induction xs as [|x xs IH]; intros start Hs; [reflexivity|].
  cbn [List.length seq combine filter fst].
  destruct (Nat.eqb_spec start index); [lia|]. cbn [negb map snd].
  f_equal. apply IH. lia.
Qed.

Lemma filter_index_from {T : Type} (xs : list T) : forall index start,
  map snd
      (filter (fun p => negb (Nat.eqb (fst p) (start + index)))
              (combine (seq start (List.length xs)) xs))
  = remove_at index xs.
Proof.
  induction xs as [|x xs IH]; intros index start; [now destruct index|].
  cbn [List.length seq combine filter fst].
  destruct index as [|n].
  - rewrite Nat.add_0_r, Nat.eqb_refl. cbn [negb remove_at].
    apply filter_index_keeps. lia.
  - destruct (Nat.eqb_spec start (start + S n)); [lia|].
    cbn [negb map snd remove_at]. f_equal.
    replace (start + S n)%nat with (S start + n)%nat by lia. apply IH.
Qed.

Lemma remove_at_split {T : Type} (xs : list T) : forall index,
  remove_at index xs = (firstn index xs ++ skipn (S index) xs)%list.
Proof.
  induction xs as [|x xs IH]; intros index; [now destruct index|].
  destruct index as [|n]; [reflexivity|].
  cbn [remove_at firstn skipn app]. f_equal. apply IH.
Qed.

(** Removing a file keeps exactly the files at the other indices, in
    order: the list loses the file at [index] when there is one, and is
    unchanged when [index] is past its end. *)
Theorem remove_at_filter {T : Type} (index : nat) (xs : list T) :
  remove_at index xs = filter_index index xs
  /\ remove_at index xs = (firstn index xs ++ skipn (S index) xs)%list
  /\ ((index < List.length xs)%nat ->
      S (List.length (remove_at index xs)) = List.length xs)
  /\ ((List.length xs <= index)%nat -> remove_at index xs = xs).
Proof.
  split; [symmetry; exact (filter_index_from xs index 0)|].
  split; [apply remove_at_split|].
  rewrite remove_at_split. split.
  - intros H. rewrite length_app, length_firstn, length_skipn. lia.
  - intros H. rewrite firstn_all2 by lia. rewrite skipn_all2 by lia.
    apply app_nil_r.
Qed.

Lemma remove_at_filter_witness :
  S (List.length (remove_at 1 ["a"; "b"; "c"]%string)) = 3%nat
  /\ remove_at 5 ["a"; "b"; "c"]%string = ["a"; "b"; "c"]%string.
Proof.
  split.
  - apply (proj1 (proj2 (proj2 (remove_at_filter 1 ["a"; "b"; "c"]%string)))).
    cbn. lia.
  - apply (proj2 (proj2 (proj2 (remove_at_filter 5 ["a"; "b"; "c"]%string)))).
    cbn. lia.
Defined.
